(** * QEMU crypto TLS session layer (crypto/tlssession.c)

    A shallow embedding of the GNUTLS build ([CONFIG_GNUTLS] defined) of
    [crypto/tlssession.c]: the session record, the transport bridge
    ([qcrypto_tls_session_push] / [qcrypto_tls_session_pull]), the
    record operations, the handshake and bye steps, session construction
    and the X.509 peer verifier.

    The TLS engine (GNUTLS), the caller's transport callbacks, the clock
    and the authorization service are outside the file; what they answer
    is an input of each operation.  Every operation is a function of the
    session and of those answers and yields its C return value, the
    session afterwards and the ordered list of the externally visible
    steps it made (mutex operations, engine calls, callback calls). *)

From Stdlib Require Import ZArith List String Bool Lia.
Import ListNotations.
Local Open Scope string_scope.
Local Open Scope list_scope.
Local Open Scope Z_scope.

(** ** Constants of headers *)

(** Modelled from the spec: [QCRYPTO_TLS_SESSION_ERR_BLOCK] is declared in
    include/crypto/tlssession.h, not in crypto/tlssession.c; it is the
    distinguished "would block" value of the callback contract, a negative
    number different from [-1]. *)
Definition QCRYPTO_TLS_SESSION_ERR_BLOCK : Z := -2.

(** Modelled from the spec: the [QCryptoTLSSessionHandshakeStatus] values
    of include/crypto/tlssession.h (COMPLETE, and the two directions the
    caller has to wait for). *)
Definition QCRYPTO_TLS_HANDSHAKE_COMPLETE : Z := 0.
Definition QCRYPTO_TLS_HANDSHAKE_SENDING : Z := 1.
Definition QCRYPTO_TLS_HANDSHAKE_RECVING : Z := 2.

(** Modelled from the spec: the [QCryptoTLSSessionByeStatus] values of
    include/crypto/tlssession.h. *)
Definition QCRYPTO_TLS_BYE_COMPLETE : Z := 0.
Definition QCRYPTO_TLS_BYE_SENDING : Z := 1.
Definition QCRYPTO_TLS_BYE_RECVING : Z := 2.

(** Modelled from the spec: error codes, certificate status bits, protocol
    and cipher identifiers of <gnutls/gnutls.h>, the engine's public
    header. *)
Definition GNUTLS_E_AGAIN : Z := -28.
Definition GNUTLS_E_SHORT_MEMORY_BUFFER : Z := -51.
Definition GNUTLS_E_INTERRUPTED : Z := -52.
Definition GNUTLS_E_REQUESTED_DATA_NOT_AVAILABLE : Z := -56.
Definition GNUTLS_E_PREMATURE_TERMINATION : Z := -110.
Definition GNUTLS_CERT_INVALID : Z := 2.
Definition GNUTLS_CERT_REVOKED : Z := 32.
Definition GNUTLS_CERT_SIGNER_NOT_FOUND : Z := 64.
Definition GNUTLS_CERT_INSECURE_ALGORITHM : Z := 256.
Definition GNUTLS_TLS1_3 : Z := 5.
Definition GNUTLS_CIPHER_CHACHA20_POLY1305 : Z := 23.

(** The two values the bridge stores in [errno]. *)
Inductive Errno : Type := EIO | EAGAIN.

(** ** Data model *)

(** An [Error *] object: its message. *)
Definition Error : Type := string.

Inductive QCryptoTLSCredsEndpoint : Type :=
| QCRYPTO_TLS_CREDS_ENDPOINT_CLIENT
| QCRYPTO_TLS_CREDS_ENDPOINT_SERVER.

(** The dynamic type of a credentials object, as [object_dynamic_cast]
    sees it; [TYPE_OTHER] is any QOM type that is none of the three. *)
Inductive CredsType : Type :=
| TYPE_QCRYPTO_TLS_CREDS_ANON
| TYPE_QCRYPTO_TLS_CREDS_PSK
| TYPE_QCRYPTO_TLS_CREDS_X509
| TYPE_OTHER (typename : string).

(** The fields of [QCryptoTLSCreds] (tlscredspriv.h) the session reads. *)
Record QCryptoTLSCreds : Type := mkCreds {
  creds_type : CredsType;
  endpoint : QCryptoTLSCredsEndpoint;
  verifyPeer : bool;
  priority : option string
}.

(** [gnutls_session_t]: the mode the engine handle was initialised for. *)
Inductive gnutls_init_flags : Type := GNUTLS_SERVER | GNUTLS_CLIENT.

(** The buffer [session->peername] points to: freshly allocated and not yet
    written, or holding a distinguished name. *)
Inductive DnameBuf : Type :=
| BufUnwritten
| BufDname (dn : string).

(** A function pointer or an opaque pointer: its address. *)
Definition Ptr : Type := Z.

(** [struct QCryptoTLSSession].  A [NULL] pointer is [None].  The mutex
    [lock] has no field: what happens to it is in the list of steps. *)
Record QCryptoTLSSession : Type := mkSession {
  creds : QCryptoTLSCreds;
  handle : option gnutls_init_flags;
  hostname : option string;
  authzid : option string;
  handshakeComplete : bool;
  writeFunc : option Ptr;
  readFunc : option Ptr;
  opaque : option Ptr;
  peername : option DnameBuf;
  rerr : option Error;
  werr : option Error;
  requireThreadSafety : bool;
  lockEnabled : bool
}.

Definition set_handle (h : option gnutls_init_flags) (s : QCryptoTLSSession) :=
  mkSession (creds s) h (hostname s) (authzid s) (handshakeComplete s)
            (writeFunc s) (readFunc s) (opaque s) (peername s) (rerr s) (werr s)
            (requireThreadSafety s) (lockEnabled s).

Definition set_handshakeComplete (b : bool) (s : QCryptoTLSSession) :=
  mkSession (creds s) (handle s) (hostname s) (authzid s) b
            (writeFunc s) (readFunc s) (opaque s) (peername s) (rerr s) (werr s)
            (requireThreadSafety s) (lockEnabled s).

Definition set_funcs (w r o : option Ptr) (s : QCryptoTLSSession) :=
  mkSession (creds s) (handle s) (hostname s) (authzid s) (handshakeComplete s)
            w r o (peername s) (rerr s) (werr s)
            (requireThreadSafety s) (lockEnabled s).

Definition set_peername (p : option DnameBuf) (s : QCryptoTLSSession) :=
  mkSession (creds s) (handle s) (hostname s) (authzid s) (handshakeComplete s)
            (writeFunc s) (readFunc s) (opaque s) p (rerr s) (werr s)
            (requireThreadSafety s) (lockEnabled s).

Definition set_rerr (e : option Error) (s : QCryptoTLSSession) :=
  mkSession (creds s) (handle s) (hostname s) (authzid s) (handshakeComplete s)
            (writeFunc s) (readFunc s) (opaque s) (peername s) e (werr s)
            (requireThreadSafety s) (lockEnabled s).

Definition set_werr (e : option Error) (s : QCryptoTLSSession) :=
  mkSession (creds s) (handle s) (hostname s) (authzid s) (handshakeComplete s)
            (writeFunc s) (readFunc s) (opaque s) (peername s) (rerr s) e
            (requireThreadSafety s) (lockEnabled s).

Definition set_requireThreadSafety (b : bool) (s : QCryptoTLSSession) :=
  mkSession (creds s) (handle s) (hostname s) (authzid s) (handshakeComplete s)
            (writeFunc s) (readFunc s) (opaque s) (peername s) (rerr s) (werr s)
            b (lockEnabled s).

Definition set_lockEnabled (b : bool) (s : QCryptoTLSSession) :=
  mkSession (creds s) (handle s) (hostname s) (authzid s) (handshakeComplete s)
            (writeFunc s) (readFunc s) (opaque s) (peername s) (rerr s) (werr s)
            (requireThreadSafety s) b.

(** ** Steps an operation makes *)

Inductive Direction : Type := DirWrite | DirRead.

(** The GNUTLS entry points the file calls on a session handle. *)
Inductive EngineFn : Type :=
| gnutls_init
| gnutls_deinit
| gnutls_priority_set_direct
| gnutls_credentials_set
| gnutls_certificate_server_set_request
| gnutls_transport_set_ptr
| gnutls_transport_set_push_function
| gnutls_transport_set_pull_function
| gnutls_record_send
| gnutls_record_recv
| gnutls_record_check_pending
| gnutls_handshake
| gnutls_bye
| gnutls_record_get_direction
| gnutls_cipher_get
| gnutls_cipher_get_key_size
| gnutls_protocol_get_version.

Inductive Event : Type :=
| EvLock                        (* qemu_mutex_lock(&session->lock) *)
| EvUnlock                      (* qemu_mutex_unlock(&session->lock) *)
| EvErrorFree (d : Direction)   (* error_free(slot); slot = NULL *)
| EvCallback (d : Direction)    (* session->writeFunc / readFunc is called *)
| EvEngine (f : EngineFn)       (* the engine function is entered *)
| EvEngineRet (f : EngineFn).   (* the engine function returns *)

(** ** The monad of session operations: state and a log of steps *)

Definition M (A : Type) : Type :=
  QCryptoTLSSession -> A * QCryptoTLSSession * list Event.

Definition ret {A} (a : A) : M A := fun s => (a, s, []).

Definition bind {A B} (m : M A) (k : A -> M B) : M B :=
  fun s =>
    let '(a, s1, t1) := m s in
    let '(b, s2, t2) := k a s1 in
    (b, s2, t1 ++ t2).

Definition get_session : M QCryptoTLSSession := fun s => (s, s, []).
Definition modify (f : QCryptoTLSSession -> QCryptoTLSSession) : M unit :=
  fun s => (tt, f s, []).
Definition emit (e : Event) : M unit := fun s => (tt, s, [e]).
Definition when (b : bool) (m : M unit) : M unit := if b then m else ret tt.

Declare Scope tls_scope.
Delimit Scope tls_scope with tls.
Notation "x <- m ;; k" := (bind m (fun x => k))
  (at level 61, m at next level, right associativity) : tls_scope.
Notation "m ;; k" := (bind m (fun _ => k))
  (at level 61, right associativity) : tls_scope.
Local Open Scope tls_scope.

Definition value {A} (r : A * QCryptoTLSSession * list Event) : A := fst (fst r).
Definition state {A} (r : A * QCryptoTLSSession * list Event) : QCryptoTLSSession :=
  snd (fst r).
Definition steps {A} (r : A * QCryptoTLSSession * list Event) : list Event := snd r.

(** ** Transport bridge *)

(** What the caller's callback does when it is called: the [ssize_t] it
    returns and the [Error] it stores through its [errp] argument, if any.
    The callback is taken not to call back into the session it serves. *)
Record CallbackResult : Type := mkCallbackResult {
  cb_ret : Z;
  cb_err : option Error
}.

(** What a bridge function hands back to the engine: its return value and
    the value it stored in [errno] ([None]: [errno] not written). *)
Record BridgeRet : Type := mkBridgeRet {
  bret : Z;
  berrno : option Errno
}.

Definition bridge_translate (r : Z) : BridgeRet :=
  if r =? QCRYPTO_TLS_SESSION_ERR_BLOCK then mkBridgeRet (-1) (Some EAGAIN)
  else if r <? 0 then mkBridgeRet (-1) (Some EIO)
  else mkBridgeRet r None.

Definition qcrypto_tls_session_push (out : CallbackResult) : M BridgeRet :=
  session <- get_session ;;
  match writeFunc session with
  | None => ret (mkBridgeRet (-1) (Some EIO))
  | Some _ =>
      when (lockEnabled session) (emit EvUnlock) ;;
      emit (EvErrorFree DirWrite) ;;
      modify (set_werr None) ;;
      emit (EvCallback DirWrite) ;;
      modify (set_werr (cb_err out)) ;;
      session <- get_session ;;
      when (lockEnabled session) (emit EvLock) ;;
      ret (bridge_translate (cb_ret out))
  end.

Definition qcrypto_tls_session_pull (out : CallbackResult) : M BridgeRet :=
  session <- get_session ;;
  match readFunc session with
  | None => ret (mkBridgeRet (-1) (Some EIO))
  | Some _ =>
      emit (EvErrorFree DirRead) ;;
      modify (set_rerr None) ;;
      when (lockEnabled session) (emit EvUnlock) ;;
      emit (EvCallback DirRead) ;;
      modify (set_rerr (cb_err out)) ;;
      session <- get_session ;;
      when (lockEnabled session) (emit EvLock) ;;
      ret (bridge_translate (cb_ret out))
  end.

(** ** The engine seen from the session *)

(** One call of a bridge function by the engine, with what the caller's
    callback answers if the bridge gets as far as calling it. *)
Record IoCall : Type := mkIoCall {
  io_dir : Direction;
  io_out : CallbackResult
}.

(** One call into the engine that may do transport I/O
    ([gnutls_record_send], [gnutls_record_recv], [gnutls_handshake],
    [gnutls_bye]): the bridge calls it makes, in order, and the code it
    returns.  The bridge functions are reached only through the engine,
    which got them at construction time as its push and pull functions. *)
Record EngineRun : Type := mkEngineRun {
  run_io : list IoCall;
  run_ret : Z
}.

Definition bridge_call (c : IoCall) : M BridgeRet :=
  match io_dir c with
  | DirWrite => qcrypto_tls_session_push (io_out c)
  | DirRead => qcrypto_tls_session_pull (io_out c)
  end.

Fixpoint bridge_calls (cs : list IoCall) : M unit :=
  match cs with
  | [] => ret tt
  | c :: cs' => bridge_call c ;; bridge_calls cs'
  end.

Definition engine_call (f : EngineFn) (run : EngineRun) : M Z :=
  emit (EvEngine f) ;;
  bridge_calls (run_io run) ;;
  emit (EvEngineRet f) ;;
  ret (run_ret run).

(** An engine function that only reports a value. *)
Definition engine_query (f : EngineFn) (answer : Z) : M Z :=
  engine_call f (mkEngineRun [] answer).

(** What the engine answers during one handshake step. *)
Record HandshakeEnv : Type := mkHandshakeEnv {
  hs_run : EngineRun;         (* gnutls_handshake *)
  hs_cipher : Z;              (* gnutls_cipher_get *)
  hs_version : Z;             (* gnutls_protocol_get_version *)
  hs_direction : Z            (* gnutls_record_get_direction *)
}.

(** What the engine answers during one bye step. *)
Record ByeEnv : Type := mkByeEnv {
  bye_run : EngineRun;        (* gnutls_bye *)
  bye_direction : Z           (* gnutls_record_get_direction *)
}.

(** What the engine answers during session construction. *)
Record NewEnv : Type := mkNewEnv {
  new_init_ret : Z;                   (* gnutls_init *)
  new_priority_ret : string -> Z;     (* gnutls_priority_set_direct, per string *)
  new_credentials_ret : Z             (* gnutls_credentials_set *)
}.

(** A peer certificate as the engine presents it. *)
Record gnutls_x509_crt : Type := mkCrt {
  crt_init_ret : Z;                     (* gnutls_x509_crt_init *)
  crt_import_ret : Z;                   (* gnutls_x509_crt_import *)
  crt_expiration_time : Z;              (* gnutls_x509_crt_get_expiration_time *)
  crt_activation_time : Z;              (* gnutls_x509_crt_get_activation_time *)
  crt_dn : option string;               (* its distinguished name, when it has one *)
  crt_check_hostname : string -> bool   (* gnutls_x509_crt_check_hostname is non-zero *)
}.

(** The surroundings of one peer verification. *)
Record VerifyEnv : Type := mkVerifyEnv {
  env_time : Z;                         (* time(NULL) *)
  env_time_strerror : string;           (* strerror(errno) after time() failed *)
  env_verify_ret : Z;                   (* gnutls_certificate_verify_peers2 *)
  env_verify_status : Z;                (* the status it stores *)
  env_peers : list gnutls_x509_crt;     (* the peer's certificate list in the engine *)
  env_authz : string -> string -> bool * option Error   (* qauthz_is_allowed_by_id *)
}.

(** [gnutls_certificate_get_peers]: the list, or [NULL] when the peer sent
    no certificate. *)
Definition gnutls_certificate_get_peers (env : VerifyEnv)
  : option (list gnutls_x509_crt) :=
  match env_peers env with
  | [] => None
  | certs => Some certs
  end.

(** [gnutls_x509_crt_get_dn (cert, buf, &size)]: the return code, the size
    stored back and the name written to the buffer.  A buffer shorter than
    the name and its terminator gets [GNUTLS_E_SHORT_MEMORY_BUFFER] and the
    size that is needed; a certificate without a name gets
    [GNUTLS_E_REQUESTED_DATA_NOT_AVAILABLE]. *)
Definition gnutls_x509_crt_get_dn (cert : gnutls_x509_crt) (size : Z)
  : Z * Z * option string :=
  match crt_dn cert with
  | None => (GNUTLS_E_REQUESTED_DATA_NOT_AVAILABLE, size, None)
  | Some dn =>
      let need := Z.of_nat (String.length dn) + 1 in
      if size <? need then (GNUTLS_E_SHORT_MEMORY_BUFFER, need, None)
      else (0, need - 1, Some dn)
  end.

Definition endpoint_eqb (a b : QCryptoTLSCredsEndpoint) : bool :=
  match a, b with
  | QCRYPTO_TLS_CREDS_ENDPOINT_CLIENT, QCRYPTO_TLS_CREDS_ENDPOINT_CLIENT => true
  | QCRYPTO_TLS_CREDS_ENDPOINT_SERVER, QCRYPTO_TLS_CREDS_ENDPOINT_SERVER => true
  | _, _ => false
  end.

Definition TLS_PRIORITY_ADDITIONAL_ANON : string := "+ANON-DH".
Definition TLS_PRIORITY_ADDITIONAL_PSK : string := "+ECDHE-PSK:+DHE-PSK:+PSK".

(** [status & flag] is non-zero. *)
Definition status_has (status flag : Z) : bool := negb (Z.land status flag =? 0).

Section TLSSession.

(** [gnutls_strerror]: the engine's rendering of an error code. *)
Variable gnutls_strerror : Z -> string.
(** Build-time configuration: the default priority string, and whether the
    countermeasure for GNUTLS issue 1717 is compiled in. *)
Variable CONFIG_TLS_PRIORITY : string.
Variable CONFIG_GNUTLS_BUG1717_WORKAROUND : bool.

(** ** Record operations *)

(** Each operation yields the C return value and the error stored through
    [errp]. *)
Definition qcrypto_tls_session_write (run : EngineRun) : M (Z * option Error) :=
  session <- get_session ;;
  when (lockEnabled session) (emit EvLock) ;;
  r <- engine_call gnutls_record_send run ;;
  session <- get_session ;;
  when (lockEnabled session) (emit EvUnlock) ;;
  if r <? 0 then
    if r =? GNUTLS_E_AGAIN then ret (QCRYPTO_TLS_SESSION_ERR_BLOCK, None)
    else
      (session <- get_session ;;
       match werr session with
       | Some e => modify (set_werr None) ;; ret (-1, Some e)
       | None =>
           ret (-1, Some (String.append "Cannot write to TLS channel: "
                                        (gnutls_strerror r)))
       end)
  else ret (r, None).

Definition qcrypto_tls_session_read (run : EngineRun) (gracefulTermination : bool)
  : M (Z * option Error) :=
  session <- get_session ;;
  when (lockEnabled session) (emit EvLock) ;;
  r <- engine_call gnutls_record_recv run ;;
  session <- get_session ;;
  when (lockEnabled session) (emit EvUnlock) ;;
  if r <? 0 then
    if r =? GNUTLS_E_AGAIN then ret (QCRYPTO_TLS_SESSION_ERR_BLOCK, None)
    else if (r =? GNUTLS_E_PREMATURE_TERMINATION) && gracefulTermination
    then ret (0, None)
    else
      (session <- get_session ;;
       match rerr session with
       | Some e => modify (set_rerr None) ;; ret (-1, Some e)
       | None =>
           ret (-1, Some (String.append "Cannot read from TLS channel: "
                                        (gnutls_strerror r)))
       end)
  else ret (r, None).

Definition qcrypto_tls_session_check_pending (pending : Z) : M Z :=
  engine_query gnutls_record_check_pending pending.

(** ** Handshake and bye steps *)

(** The message of a failed handshake or bye step: the engine's text,
    followed by the pending read error or else the pending write error. *)
Definition failure_message (what : string) (r : Z) (session : QCryptoTLSSession)
  : Error :=
  match rerr session, werr session with
  | Some e, _ => String.append what (String.append (gnutls_strerror r)
                                                   (String.append ": " e))
  | None, Some e => String.append what (String.append (gnutls_strerror r)
                                                      (String.append ": " e))
  | None, None => String.append what (gnutls_strerror r)
  end.

Definition clear_error_slots : M unit :=
  emit (EvErrorFree DirRead) ;;
  emit (EvErrorFree DirWrite) ;;
  modify (set_rerr None) ;;
  modify (set_werr None).

(** The block under [CONFIG_GNUTLS_BUG1717_WORKAROUND]; the second argument
    of the trace point is a call of [gnutls_protocol_get_version]. *)
Definition bug1717_workaround (env : HandshakeEnv) : M unit :=
  cipher <- engine_query gnutls_cipher_get (hs_cipher env) ;;
  engine_query gnutls_protocol_get_version (hs_version env) ;;
  session <- get_session ;;
  if requireThreadSafety session then
    (version <- engine_query gnutls_protocol_get_version (hs_version env) ;;
     when ((version =? GNUTLS_TLS1_3)
           && negb (cipher =? GNUTLS_CIPHER_CHACHA20_POLY1305))
          (modify (set_lockEnabled true)))
  else ret tt.

Definition qcrypto_tls_session_handshake (env : HandshakeEnv)
  : M (Z * option Error) :=
  r <- engine_call gnutls_handshake (hs_run env) ;;
  if r =? 0 then
    (when CONFIG_GNUTLS_BUG1717_WORKAROUND (bug1717_workaround env) ;;
     modify (set_handshakeComplete true) ;;
     ret (QCRYPTO_TLS_HANDSHAKE_COMPLETE, None))
  else if (r =? GNUTLS_E_INTERRUPTED) || (r =? GNUTLS_E_AGAIN) then
    (direction <- engine_query gnutls_record_get_direction (hs_direction env) ;;
     ret (if direction =? 0 then QCRYPTO_TLS_HANDSHAKE_RECVING
          else QCRYPTO_TLS_HANDSHAKE_SENDING, None))
  else
    (session <- get_session ;;
     clear_error_slots ;;
     ret (-1, Some (failure_message "TLS handshake failed: " r session))).

Definition qcrypto_tls_session_bye (env : ByeEnv) : M (Z * option Error) :=
  session <- get_session ;;
  if negb (handshakeComplete session) then ret (0, None)
  else
    (when (lockEnabled session) (emit EvLock) ;;
     r <- engine_call gnutls_bye (bye_run env) ;;
     session <- get_session ;;
     when (lockEnabled session) (emit EvUnlock) ;;
     if r =? 0 then ret (QCRYPTO_TLS_BYE_COMPLETE, None)
     else if (r =? GNUTLS_E_INTERRUPTED) || (r =? GNUTLS_E_AGAIN) then
       (direction <- engine_query gnutls_record_get_direction (bye_direction env) ;;
        ret (if direction =? 0 then QCRYPTO_TLS_BYE_RECVING
             else QCRYPTO_TLS_BYE_SENDING, None))
     else
       (session <- get_session ;;
        clear_error_slots ;;
        ret (-1, Some (failure_message "TLS termination failed: " r session)))).

(** ** Small operations *)

Definition qcrypto_tls_session_set_callbacks (w r o : option Ptr) : M unit :=
  modify (set_funcs w r o).

Definition qcrypto_tls_session_require_thread_safety : M unit :=
  modify (set_requireThreadSafety true).

Definition qcrypto_tls_session_get_key_size (cipher ssf : Z)
  : M (Z * option Error) :=
  engine_query gnutls_cipher_get cipher ;;
  s <- engine_query gnutls_cipher_get_key_size ssf ;;
  if s =? 0 then ret (-1, Some "Cannot get TLS cipher key size")
  else ret (s, None).

(** [g_strdup] of the name, or [NULL]. *)
Definition qcrypto_tls_session_get_peer_name (session : QCryptoTLSSession)
  : option DnameBuf :=
  match peername session with
  | Some buf => Some buf
  | None => None
  end.

(** ** Construction and release *)

(** [qcrypto_tls_session_free] of a non-NULL session. *)
Definition qcrypto_tls_session_free : M unit :=
  emit (EvErrorFree DirRead) ;;
  emit (EvErrorFree DirWrite) ;;
  engine_query gnutls_deinit 0 ;;
  ret tt.

(** The session after [g_new0] and the assignments that precede the first
    check: every other field is zero. *)
Definition session_alloc (c : QCryptoTLSCreds) (host authz : option string)
  : QCryptoTLSSession :=
  mkSession c None host authz false None None None None None None false false.

Definition priority_string (c : QCryptoTLSCreds) (additional : string) : string :=
  match priority c with
  | Some p => String.append p (String.append ":" additional)
  | None => String.append CONFIG_TLS_PRIORITY (String.append ":" additional)
  end.

(** Priority string and key material for the anonymous and PSK variants. *)
Definition install_with_suffix (env : NewEnv) (c : QCryptoTLSCreds)
                               (additional : string) : M (option Error) :=
  let prio := priority_string c additional in
  r <- engine_query gnutls_priority_set_direct (new_priority_ret env prio) ;;
  if r <? 0 then
    ret (Some (String.append "Unable to set TLS session priority "
                 (String.append prio (String.append ": " (gnutls_strerror r)))))
  else
    (r <- engine_query gnutls_credentials_set (new_credentials_ret env) ;;
     if r <? 0 then
       ret (Some (String.append "Cannot set session credentials: "
                                (gnutls_strerror r)))
     else ret None).

Definition install_x509 (env : NewEnv) (c : QCryptoTLSCreds) : M (option Error) :=
  let prio := match priority c with Some p => p | None => CONFIG_TLS_PRIORITY end in
  r <- engine_query gnutls_priority_set_direct (new_priority_ret env prio) ;;
  if r <? 0 then
    ret (Some (String.append "Cannot set default TLS session priority "
                 (String.append prio (String.append ": " (gnutls_strerror r)))))
  else
    (r <- engine_query gnutls_credentials_set (new_credentials_ret env) ;;
     if r <? 0 then
       ret (Some (String.append "Cannot set session credentials: "
                                (gnutls_strerror r)))
     else
       (when (endpoint_eqb (endpoint c) QCRYPTO_TLS_CREDS_ENDPOINT_SERVER)
             (engine_query gnutls_certificate_server_set_request 0 ;; ret tt) ;;
        ret None)).

(** The body of [qcrypto_tls_session_new] up to [return session] or
    [goto error]: [Some e] is a jump to [error] with [e] stored in [errp]. *)
Definition session_new_body (env : NewEnv) (c : QCryptoTLSCreds)
                            (ep : QCryptoTLSCredsEndpoint) : M (option Error) :=
  if negb (endpoint_eqb (endpoint c) ep) then
    ret (Some "Credentials endpoint doesn't match session")
  else
    (r <- engine_query gnutls_init (new_init_ret env) ;;
     if r <? 0 then
       ret (Some (String.append "Cannot initialize TLS session: "
                                (gnutls_strerror r)))
     else
       (modify (set_handle
                  (Some (if endpoint_eqb ep QCRYPTO_TLS_CREDS_ENDPOINT_SERVER
                         then GNUTLS_SERVER else GNUTLS_CLIENT))) ;;
        e <- match creds_type c with
             | TYPE_QCRYPTO_TLS_CREDS_ANON =>
                 install_with_suffix env c TLS_PRIORITY_ADDITIONAL_ANON
             | TYPE_QCRYPTO_TLS_CREDS_PSK =>
                 install_with_suffix env c TLS_PRIORITY_ADDITIONAL_PSK
             | TYPE_QCRYPTO_TLS_CREDS_X509 => install_x509 env c
             | TYPE_OTHER typename =>
                 ret (Some (String.append "Unsupported TLS credentials type "
                                          typename))
             end ;;
        match e with
        | Some err => ret (Some err)
        | None =>
            engine_query gnutls_transport_set_ptr 0 ;;
            engine_query gnutls_transport_set_push_function 0 ;;
            engine_query gnutls_transport_set_pull_function 0 ;;
            ret None
        end)).

(** [qcrypto_tls_session_new]: the session or [NULL], the error stored in
    [errp], and the steps made, those of the release on the error path
    included. *)
Definition qcrypto_tls_session_new (env : NewEnv) (c : QCryptoTLSCreds)
    (host authz : option string) (ep : QCryptoTLSCredsEndpoint)
  : option QCryptoTLSSession * option Error * list Event :=
  let r := session_new_body env c ep (session_alloc c host authz) in
  match value r with
  | Some err =>
      (None, Some err, steps r ++ steps (qcrypto_tls_session_free (state r)))
  | None => (Some (state r), None, steps r)
  end.

(** ** Peer verifier *)

(** The outcome of a verification: return value, error stored in [errp],
    session afterwards. *)
Definition Verdict : Type := Z * option Error * QCryptoTLSSession.

Definition reject (msg : Error) (session : QCryptoTLSSession) : Verdict :=
  (-1, Some msg, session).

(** The [requery:] loop, from the label to its exit: the last return code
    of [gnutls_x509_crt_get_dn] and the buffer [session->peername] then
    points to.  [fuel] bounds the number of passes; [None] is a loop that
    has not ended within them. *)
Fixpoint requery (fuel : nat) (cert : gnutls_x509_crt) (dnameSize : Z)
  : option (Z * DnameBuf) :=
  match fuel with
  | O => None
  | S fuel' =>
      let r := gnutls_x509_crt_get_dn cert dnameSize in
      let rc := fst (fst r) in
      if rc <? 0 then
        if rc =? GNUTLS_E_SHORT_MEMORY_BUFFER
        then requery fuel' cert (snd (fst r))
        else Some (rc, BufUnwritten)
      else Some (rc, match snd r with
                     | Some dn => BufDname dn
                     | None => BufUnwritten
                     end)
  end.

Definition buf_text (b : DnameBuf) : string :=
  match b with
  | BufDname dn => dn
  | BufUnwritten => ""
  end.

(** The authorization test of the first certificate: [Some e] rejects. *)
Definition check_authz (env : VerifyEnv) (session : QCryptoTLSSession)
  : option Error :=
  match authzid session with
  | None => None
  | Some id =>
      let name := match peername session with
                  | Some b => buf_text b
                  | None => ""
                  end in
      let r := env_authz env id name in
      match snd r with
      | Some err => Some err
      | None =>
          if fst r then None
          else Some (String.append "TLS x509 authz check for "
                                   (String.append name " is denied"))
      end
  end.

(** The hostname test of the first certificate: [Some e] rejects. *)
Definition check_hostname (cert : gnutls_x509_crt) (session : QCryptoTLSSession)
  : option Error :=
  match hostname session with
  | Some h =>
      if crt_check_hostname cert h then None
      else Some (String.append "Certificate does not match the hostname " h)
  | None =>
      if endpoint_eqb (endpoint (creds session)) QCRYPTO_TLS_CREDS_ENDPOINT_CLIENT
      then Some "No hostname for certificate validation"
      else None
  end.

(** The block [if (i == 0) { ... }]: the error of a [goto error], if any,
    and the session afterwards. *)
Definition check_first (fuel : nat) (env : VerifyEnv) (cert : gnutls_x509_crt)
                       (session : QCryptoTLSSession)
  : option (option Error * QCryptoTLSSession) :=
  let session := set_peername (Some BufUnwritten) session in
  match requery fuel cert 1024 with
  | None => None
  | Some (rc, buf) =>
      let session := set_peername (Some buf) session in
      if rc <? 0 then
        Some (Some (String.append "Cannot get client distinguished name: "
                                  (gnutls_strerror rc)), session)
      else
        match check_authz env session with
        | Some err => Some (Some err, session)
        | None =>
            match check_hostname cert session with
            | Some err => Some (Some err, session)
            | None => Some (None, session)
            end
        end
  end.

(** The loop [for (i = 0; i < nCerts; i++)] from index [i] on, [certs]
    being the certificates not yet visited. *)
Fixpoint check_chain (fuel : nat) (env : VerifyEnv) (now : Z) (i : nat)
                     (certs : list gnutls_x509_crt) (session : QCryptoTLSSession)
  : option Verdict :=
  match certs with
  | [] => Some (0, None, session)
  | cert :: rest =>
      if crt_init_ret cert <? 0 then
        Some (reject (String.append "Cannot initialize certificate: "
                                    (gnutls_strerror (crt_init_ret cert))) session)
      else if crt_import_ret cert <? 0 then
        Some (reject (String.append "Cannot import certificate: "
                                    (gnutls_strerror (crt_import_ret cert))) session)
      else if crt_expiration_time cert <? now then
        Some (reject "The certificate has expired" session)
      else if crt_activation_time cert >? now then
        Some (reject "The certificate is not yet activated" session)
      else if crt_activation_time cert >? now then
        Some (reject "The certificate is not yet activated" session)
      else if Nat.eqb i 0 then
        match check_first fuel env cert session with
        | None => None
        | Some (Some err, session1) => Some (reject err session1)
        | Some (None, session1) => check_chain fuel env now (S i) rest session1
        end
      else check_chain fuel env now (S i) rest session
  end.

Definition verify_reason (status : Z) : string :=
  let reason := "Invalid certificate" in
  let reason := if status_has status GNUTLS_CERT_INVALID
                then "The certificate is not trusted" else reason in
  let reason := if status_has status GNUTLS_CERT_SIGNER_NOT_FOUND
                then "The certificate hasn't got a known issuer" else reason in
  let reason := if status_has status GNUTLS_CERT_REVOKED
                then "The certificate has been revoked" else reason in
  let reason := if status_has status GNUTLS_CERT_INSECURE_ALGORITHM
                then "The certificate uses an insecure algorithm" else reason in
  reason.

Definition qcrypto_tls_session_check_certificate (fuel : nat) (env : VerifyEnv)
                                                 (session : QCryptoTLSSession)
  : option Verdict :=
  let now := env_time env in
  if now =? -1 then
    Some (reject (String.append "Cannot get current time: "
                                (env_time_strerror env)) session)
  else if env_verify_ret env <? 0 then
    Some (reject (String.append "Verify failed: "
                                (gnutls_strerror (env_verify_ret env))) session)
  else if negb (env_verify_status env =? 0) then
    Some (reject (verify_reason (env_verify_status env)) session)
  else
    match gnutls_certificate_get_peers env with
    | None => Some (reject "No certificate peers" session)
    | Some certs => check_chain fuel env now 0 certs session
    end.

Definition qcrypto_tls_session_check_credentials (fuel : nat) (env : VerifyEnv)
                                                 (session : QCryptoTLSSession)
  : option Verdict :=
  match creds_type (creds session) with
  | TYPE_QCRYPTO_TLS_CREDS_ANON => Some (0, None, session)
  | TYPE_QCRYPTO_TLS_CREDS_PSK => Some (0, None, session)
  | TYPE_QCRYPTO_TLS_CREDS_X509 =>
      if verifyPeer (creds session)
      then qcrypto_tls_session_check_certificate fuel env session
      else Some (0, None, session)
  | TYPE_OTHER typename =>
      Some (reject (String.append "Unexpected credential type " typename) session)
  end.

(** ** The life of a session as a sequence of calls *)

(** A call of the public interface on an existing session, with what the
    outside answers during it. *)
Inductive Op : Type :=
| OpSetCallbacks (w r o : option Ptr)
| OpRequireThreadSafety
| OpHandshake (env : HandshakeEnv)
| OpCheckCredentials (fuel : nat) (env : VerifyEnv)
| OpWrite (run : EngineRun)
| OpRead (run : EngineRun) (gracefulTermination : bool)
| OpCheckPending (pending : Z)
| OpBye (env : ByeEnv)
| OpGetKeySize (cipher ssf : Z)
| OpGetPeerName.

(** The session after one call; [None] when the call does not return. *)
Definition exec (op : Op) (s : QCryptoTLSSession) : option QCryptoTLSSession :=
  match op with
  | OpSetCallbacks w r o => Some (state (qcrypto_tls_session_set_callbacks w r o s))
  | OpRequireThreadSafety => Some (state (qcrypto_tls_session_require_thread_safety s))
  | OpHandshake env => Some (state (qcrypto_tls_session_handshake env s))
  | OpCheckCredentials fuel env =>
      option_map snd (qcrypto_tls_session_check_credentials fuel env s)
  | OpWrite run => Some (state (qcrypto_tls_session_write run s))
  | OpRead run g => Some (state (qcrypto_tls_session_read run g s))
  | OpCheckPending n => Some (state (qcrypto_tls_session_check_pending n s))
  | OpBye env => Some (state (qcrypto_tls_session_bye env s))
  | OpGetKeySize c k => Some (state (qcrypto_tls_session_get_key_size c k s))
  | OpGetPeerName => Some s
  end.

Fixpoint exec_all (ops : list Op) (s : QCryptoTLSSession)
  : option QCryptoTLSSession :=
  match ops with
  | [] => Some s
  | op :: ops' =>
      match exec op s with
      | Some s' => exec_all ops' s'
      | None => None
      end
  end.

(** The call is a handshake step that returns COMPLETE. *)
Definition completes_handshake (op : Op) (s : QCryptoTLSSession) : bool :=
  match op with
  | OpHandshake env =>
      fst (value (qcrypto_tls_session_handshake env s))
        =? QCRYPTO_TLS_HANDSHAKE_COMPLETE
  | _ => false
  end.

End TLSSession.

(** ** Reading a list of steps *)

(** The mutex discipline of a list of steps, for the thread that makes
    them.  [held] says whether the thread holds [session->lock] at the
    start.  The result is [None] when the thread locks the mutex it holds,
    unlocks it without holding it, enters or leaves an engine function of
    [must] without holding it, or calls a transport callback while holding
    it; otherwise it is whether the mutex is held at the end. *)
Fixpoint guard_ok (must : EngineFn -> bool) (held : bool) (tr : list Event)
  : option bool :=
  match tr with
  | [] => Some held
  | EvLock :: tr' => if held then None else guard_ok must true tr'
  | EvUnlock :: tr' => if held then guard_ok must false tr' else None
  | EvErrorFree _ :: tr' => guard_ok must held tr'
  | EvCallback _ :: tr' => if held then None else guard_ok must held tr'
  | EvEngine f :: tr' =>
      if must f && negb held then None else guard_ok must held tr'
  | EvEngineRet f :: tr' =>
      if must f && negb held then None else guard_ok must held tr'
  end.

Definition every_engine_call (f : EngineFn) : bool := true.

(** The engine functions through which transport I/O happens. *)
Definition does_io (f : EngineFn) : bool :=
  match f with
  | gnutls_record_send | gnutls_record_recv | gnutls_handshake | gnutls_bye => true
  | _ => false
  end.

(** Whether the callback of a direction is installed, and the error slot
    of a direction. *)
Definition installed (d : Direction) (s : QCryptoTLSSession) : bool :=
  match d with
  | DirWrite => match writeFunc s with Some _ => true | None => false end
  | DirRead => match readFunc s with Some _ => true | None => false end
  end.

Definition slot (d : Direction) (s : QCryptoTLSSession) : option Error :=
  match d with
  | DirWrite => werr s
  | DirRead => rerr s
  end.

(** The first certificate of the chain, when verification gets as far as
    reading its distinguished name: the clock, the chain verification and
    the certificate's import and validity window are all in order. *)
Definition leaf_inspected (env : VerifyEnv) : option gnutls_x509_crt :=
  if env_time env =? -1 then None
  else if env_verify_ret env <? 0 then None
  else if negb (env_verify_status env =? 0) then None
  else match env_peers env with
       | [] => None
       | cert :: _ =>
           if (crt_init_ret cert <? 0) || (crt_import_ret cert <? 0)
              || (crt_expiration_time cert <? env_time env)
              || (crt_activation_time cert >? env_time env)
           then None else Some cert
       end.

(** Whether a session makes [qcrypto_tls_session_check_credentials] run the
    certificate check. *)
Definition verifies_x509 (s : QCryptoTLSSession) : bool :=
  match creds_type (creds s) with
  | TYPE_QCRYPTO_TLS_CREDS_X509 => verifyPeer (creds s)
  | _ => false
  end.

(** ** Further readings of sessions, steps and certificates *)

(** A lock or an unlock of [session->lock]. *)
Definition is_mutex_op (ev : Event) : bool :=
  match ev with
  | EvLock | EvUnlock => true
  | _ => false
  end.

(** The test under which a completing handshake step sets [lockEnabled],
    in a build where [workaround] says whether the countermeasure is
    compiled in. *)
Definition engages_guard (workaround : bool) (env : HandshakeEnv)
                         (s : QCryptoTLSSession) : bool :=
  workaround
  && (run_ret (hs_run env) =? 0)
  && requireThreadSafety s
  && (hs_version env =? GNUTLS_TLS1_3)
  && negb (hs_cipher env =? GNUTLS_CIPHER_CHACHA20_POLY1305).

(** Whether a call of the interface engages the guard, and whether it is
    the declaration that thread safety is required. *)
Definition call_engages_guard (workaround : bool) (op : Op)
                              (s : QCryptoTLSSession) : bool :=
  match op with
  | OpHandshake env => engages_guard workaround env s
  | _ => false
  end.

Definition is_require_thread_safety (op : Op) : bool :=
  match op with
  | OpRequireThreadSafety => true
  | _ => false
  end.

(** Whether a call of the interface is a credentials check. *)
Definition is_check_credentials (op : Op) : bool :=
  match op with
  | OpCheckCredentials _ _ => true
  | _ => false
  end.

(** No step of the list is a mutex operation. *)
Definition mutex_untouched (tr : list Event) : bool :=
  forallb (fun ev => negb (is_mutex_op ev)) tr.

(** The number of times a list of steps enters an engine function that
    does transport I/O, and the number of times it calls the callback of
    a direction. *)
Definition io_engine_calls (tr : list Event) : nat :=
  List.length (filter (fun ev => match ev with
                                 | EvEngine f => does_io f
                                 | _ => false
                                 end) tr).

Definition direction_eqb (a b : Direction) : bool :=
  match a, b with
  | DirWrite, DirWrite | DirRead, DirRead => true
  | _, _ => false
  end.

Definition callback_calls (d : Direction) (tr : list Event) : nat :=
  List.length (filter (fun ev => match ev with
                                 | EvCallback d' => direction_eqb d d'
                                 | _ => false
                                 end) tr).

(** The number of bridge calls of a direction in a script. *)
Definition bridge_requests (d : Direction) (cs : list IoCall) : nat :=
  List.length (filter (fun c => direction_eqb d (io_dir c)) cs).

(** The engine could initialise and import the certificate, and [now] is
    inside its validity window. *)
Definition cert_in_order (now : Z) (cert : gnutls_x509_crt) : bool :=
  negb (crt_init_ret cert <? 0)
  && negb (crt_import_ret cert <? 0)
  && negb (crt_expiration_time cert <? now)
  && negb (crt_activation_time cert >? now).

(** Everything the certificate check asks of a peer whose first
    certificate carries the name [dn]. *)
Definition peer_acceptable (env : VerifyEnv) (s : QCryptoTLSSession)
                           (dn : string) : Prop :=
  env_time env <> -1
  /\ 0 <= env_verify_ret env
  /\ env_verify_status env = 0
  /\ (exists leaf rest,
        env_peers env = leaf :: rest
        /\ crt_dn leaf = Some dn
        /\ Forall (fun cert => cert_in_order (env_time env) cert = true)
                  (leaf :: rest)
        /\ match hostname s with
           | Some h => crt_check_hostname leaf h = true
           | None => endpoint (creds s) = QCRYPTO_TLS_CREDS_ENDPOINT_SERVER
           end)
  /\ match authzid s with
     | Some id => env_authz env id dn = (true, None)
     | None => True
     end.

(** The steps of [qcrypto_tls_session_free]. *)
Definition free_steps : list Event :=
  [EvErrorFree DirRead; EvErrorFree DirWrite;
   EvEngine gnutls_deinit; EvEngineRet gnutls_deinit].

(** ** CPU definitions of the MIPS target *)

(** The fields of [CpuDefinitionInfo] the MIPS code fills in; [g_malloc0]
    leaves the others zero. *)
Record CpuDefinitionInfo : Type := mkCpuDefinitionInfo {
  name : string;
  q_typename : string
}.

Section MipsCpu.

(** [cpu_model_from_type]: the model name of a CPU type name. *)
Variable cpu_model_from_type : string -> string.

(** [mips_cpu_add_definition (oc, &cpu_list)], the class [oc] being given
    by its name: the list afterwards. *)
Definition mips_cpu_add_definition (typename : string)
                                   (cpu_list : list CpuDefinitionInfo)
  : list CpuDefinitionInfo :=
  mkCpuDefinitionInfo (cpu_model_from_type typename) typename :: cpu_list.

(** [qmp_query_cpu_definitions], [classes] being the names of the classes
    [object_class_get_list] returns, in its order. *)
Definition qmp_query_cpu_definitions (classes : list string)
  : list CpuDefinitionInfo :=
  fold_left (fun cpu_list typename => mips_cpu_add_definition typename cpu_list)
            classes [].

End MipsCpu.

(** ** Concrete sessions and surroundings *)

Definition strerror0 (code : Z) : string := "GNUTLS error".

Definition x509_client_creds : QCryptoTLSCreds :=
  mkCreds TYPE_QCRYPTO_TLS_CREDS_X509 QCRYPTO_TLS_CREDS_ENDPOINT_CLIENT true None.

Definition x509_server_creds : QCryptoTLSCreds :=
  mkCreds TYPE_QCRYPTO_TLS_CREDS_X509 QCRYPTO_TLS_CREDS_ENDPOINT_SERVER true None.

Definition engine_accepts : NewEnv := mkNewEnv 0 (fun _ => 0) 0.

(** A server session as [qcrypto_tls_session_new] returns it, with an
    authorization identity and no hostname. *)
Definition server_session : QCryptoTLSSession :=
  mkSession x509_server_creds (Some GNUTLS_SERVER) None (Some "tls-acl")
            false None None None None None None false false.

(** A client session as [qcrypto_tls_session_new] returns it, without a
    hostname. *)
Definition client_session : QCryptoTLSSession :=
  mkSession x509_client_creds (Some GNUTLS_CLIENT) None None
            false None None None None None None false false.

(** The server session with both callbacks installed. *)
Definition wired_session : QCryptoTLSSession :=
  state (qcrypto_tls_session_set_callbacks (Some 4096) (Some 8192) (Some 64)
                                           server_session).

(** A handshake step that completes with TLS 1.3 and a cipher other than
    CHACHA20-POLY1305 (11 is [GNUTLS_CIPHER_AES_256_GCM]). *)
Definition tls13_handshake : HandshakeEnv :=
  mkHandshakeEnv (mkEngineRun [] 0) 11 GNUTLS_TLS1_3 0.

(** The wired session after the caller asked for thread safety and the
    handshake completed, in a build with the countermeasure. *)
Definition guarded_session : QCryptoTLSSession :=
  state (qcrypto_tls_session_handshake strerror0 true tls13_handshake
           (state (qcrypto_tls_session_require_thread_safety wired_session))).

Definition sent_all : CallbackResult := mkCallbackResult 5 None.
Definition would_block : CallbackResult :=
  mkCallbackResult QCRYPTO_TLS_SESSION_ERR_BLOCK None.
Definition reset_by_peer : CallbackResult :=
  mkCallbackResult (-1) (Some "Connection reset by peer").

(** A record send during which the transport fails (-53 is
    [GNUTLS_E_PUSH_ERROR]) and a record receive during which it fails (-54
    is [GNUTLS_E_PULL_ERROR]). *)
Definition failed_send : EngineRun :=
  mkEngineRun [mkIoCall DirWrite sent_all; mkIoCall DirWrite reset_by_peer] (-53).
Definition failed_recv : EngineRun :=
  mkEngineRun [mkIoCall DirRead reset_by_peer] (-54).

(** A record receive that meets the end of the stream without a closure
    alert. *)
Definition premature_end : EngineRun :=
  mkEngineRun [mkIoCall DirRead (mkCallbackResult 0 None)]
              GNUTLS_E_PREMATURE_TERMINATION.

(** A bye step that has to wait for the transport. *)
Definition bye_blocked : ByeEnv :=
  mkByeEnv (mkEngineRun [mkIoCall DirWrite would_block] GNUTLS_E_AGAIN) 1.

(** A further handshake step on a session whose handshake is complete,
    during which the engine sends one record. *)
Definition second_handshake : HandshakeEnv :=
  mkHandshakeEnv (mkEngineRun [mkIoCall DirWrite sent_all] 0) 11 GNUTLS_TLS1_3 0.

(** A valid certificate for the peer "CN=peer" that matches no hostname. *)
Definition peer_cert : gnutls_x509_crt :=
  mkCrt 0 0 2000 1000 (Some "CN=peer") (fun _ => false).

(** A verification at time 1500 of the chain [peer_cert], where the
    authorization service denies every identity. *)
Definition authz_denies : VerifyEnv :=
  mkVerifyEnv 1500 "" 0 0 [peer_cert] (fun _ _ => (false, None)).

(** The same where the authorization service allows every identity. *)
Definition authz_allows : VerifyEnv :=
  mkVerifyEnv 1500 "" 0 0 [peer_cert] (fun _ _ => (true, None)).

(** A handshake step that has to wait for data from the peer, and one
    during which the transport is reset. *)
Definition handshake_blocked : HandshakeEnv :=
  mkHandshakeEnv (mkEngineRun [mkIoCall DirRead would_block] GNUTLS_E_AGAIN) 0 0 0.
Definition handshake_reset : HandshakeEnv :=
  mkHandshakeEnv
    (mkEngineRun [mkIoCall DirWrite sent_all; mkIoCall DirRead reset_by_peer]
                 (-54)) 0 0 0.

(** A bye step during which the transport is reset. *)
Definition bye_reset : ByeEnv :=
  mkByeEnv (mkEngineRun [mkIoCall DirWrite reset_by_peer] (-53)) 1.

(** The wired session once the caller has required thread safety. *)
Definition required_session : QCryptoTLSSession :=
  state (qcrypto_tls_session_require_thread_safety wired_session).

(** An issuer certificate that expired at time 1200, and a verification
    at time 1500 of the chain made of [peer_cert] and it. *)
Definition expired_issuer : gnutls_x509_crt :=
  mkCrt 0 0 1200 1000 (Some "CN=issuer") (fun _ => false).
Definition chain_with_expired_issuer : VerifyEnv :=
  mkVerifyEnv 1500 "" 0 0 [peer_cert; expired_issuer] (fun _ _ => (true, None)).

(** A later verification, at time 1600, of the chain of another peer,
    "CN=other", whom the authorization service allows. *)
Definition other_peer_cert : gnutls_x509_crt :=
  mkCrt 0 0 2000 1000 (Some "CN=other") (fun _ => false).
Definition other_peer_allowed : VerifyEnv :=
  mkVerifyEnv 1600 "" 0 0 [other_peer_cert] (fun _ _ => (true, None)).

(** A verification whose chain check reports a revoked certificate of an
    unknown issuer (status 32 + 64 + 2). *)
Definition revoked_and_unknown_issuer : VerifyEnv :=
  mkVerifyEnv 1500 "" 0 98 [peer_cert] (fun _ _ => (true, None)).


(** ** Properties *)

Section Properties.

Variable gnutls_strerror : Z -> string.
Variable CONFIG_TLS_PRIORITY : string.
Variable CONFIG_GNUTLS_BUG1717_WORKAROUND : bool.

Local Abbreviation write := (qcrypto_tls_session_write gnutls_strerror).
Local Abbreviation read := (qcrypto_tls_session_read gnutls_strerror).
Local Abbreviation handshake :=
  (qcrypto_tls_session_handshake gnutls_strerror CONFIG_GNUTLS_BUG1717_WORKAROUND).
Local Abbreviation bye := (qcrypto_tls_session_bye gnutls_strerror).
Local Abbreviation check_credentials :=
  (qcrypto_tls_session_check_credentials gnutls_strerror).
Local Abbreviation call :=
  (exec gnutls_strerror CONFIG_GNUTLS_BUG1717_WORKAROUND).
Local Abbreviation calls :=
  (exec_all gnutls_strerror CONFIG_GNUTLS_BUG1717_WORKAROUND).
Local Abbreviation completes :=
  (completes_handshake gnutls_strerror CONFIG_GNUTLS_BUG1717_WORKAROUND).
Local Abbreviation session_new :=
  (qcrypto_tls_session_new gnutls_strerror CONFIG_TLS_PRIORITY).

(** *** The monad *)

Lemma bind_eq {A B} (m : M A) (k : A -> M B) (s : QCryptoTLSSession) :
  bind m k s
  = (value (k (value (m s)) (state (m s))),
     state (k (value (m s)) (state (m s))),
     steps (m s) ++ steps (k (value (m s)) (state (m s)))).
Proof.
  unfold bind, value, state, steps.
  destruct (m s) as [[a s1] t1]. cbn [fst snd].
  destruct (k a s1) as [[b s2] t2]. reflexivity.
Qed.

(** *** Transport bridge *)

Lemma push_eq (out : CallbackResult) (s : QCryptoTLSSession) :
  qcrypto_tls_session_push out s =
  match writeFunc s with
  | None => (mkBridgeRet (-1) (Some EIO), s, [])
  | Some _ =>
      (bridge_translate (cb_ret out),
       set_werr (cb_err out) s,
       (if lockEnabled s then [EvUnlock] else [])
         ++ [EvErrorFree DirWrite; EvCallback DirWrite]
         ++ (if lockEnabled s then [EvLock] else []))
  end.
Proof.
  unfold qcrypto_tls_session_push, bind, get_session.
  destruct (writeFunc s); [| reflexivity].
  destruct (lockEnabled s) eqn:HL; cbn; rewrite ?HL; reflexivity.
Qed.

Lemma pull_eq (out : CallbackResult) (s : QCryptoTLSSession) :
  qcrypto_tls_session_pull out s =
  match readFunc s with
  | None => (mkBridgeRet (-1) (Some EIO), s, [])
  | Some _ =>
      (bridge_translate (cb_ret out),
       set_rerr (cb_err out) s,
       [EvErrorFree DirRead]
         ++ (if lockEnabled s then [EvUnlock] else [])
         ++ [EvCallback DirRead]
         ++ (if lockEnabled s then [EvLock] else []))
  end.
Proof.
  unfold qcrypto_tls_session_pull, bind, get_session.
  destruct (readFunc s); [| reflexivity].
  destruct (lockEnabled s) eqn:HL; cbn; rewrite ?HL; reflexivity.
Qed.

Lemma bridge_translate_block :
  bridge_translate QCRYPTO_TLS_SESSION_ERR_BLOCK = mkBridgeRet (-1) (Some EAGAIN).
Proof. reflexivity. Qed.

Lemma bridge_translate_failure (r : Z) :
  r < 0 -> r <> QCRYPTO_TLS_SESSION_ERR_BLOCK ->
  bridge_translate r = mkBridgeRet (-1) (Some EIO).
Proof.
  intros Hneg Hnb. unfold bridge_translate.
  destruct (Z.eqb_spec r QCRYPTO_TLS_SESSION_ERR_BLOCK) as [E | _]; [contradiction |].
  destruct (Z.ltb_spec r 0) as [_ | Hge]; [reflexivity | lia].
Qed.

Lemma bridge_translate_count (r : Z) :
  0 <= r -> bridge_translate r = mkBridgeRet r None.
Proof.
  intros Hpos. unfold bridge_translate, QCRYPTO_TLS_SESSION_ERR_BLOCK.
  destruct (Z.eqb_spec r (-2)) as [E | _]; [lia |].
  destruct (Z.ltb_spec r 0) as [Hlt | _]; [lia | reflexivity].
Qed.

(** With its callback installed a bridge function returns the translation
    of what the callback returned and leaves in the slot of its direction
    what the callback stored. *)
Lemma bridge_call_installed (c : IoCall) (s : QCryptoTLSSession) :
  installed (io_dir c) s = true ->
  value (bridge_call c s) = bridge_translate (cb_ret (io_out c))
  /\ slot (io_dir c) (state (bridge_call c s)) = cb_err (io_out c).
Proof.
  destruct c as [[|] out]; unfold installed, bridge_call; cbn [io_dir io_out].
  - rewrite push_eq. destruct (writeFunc s); [intros _ | discriminate].
    split; reflexivity.
  - rewrite pull_eq. destruct (readFunc s); [intros _ | discriminate].
    split; reflexivity.
Qed.

(** C9: with the callback of its direction installed, push and pull turn a
    "would block" answer of the callback into -1 with errno EAGAIN, any
    other negative answer into -1 with errno EIO while the error the
    callback stored stays in the slot of that direction, and return a
    non-negative count as it is. *)
Theorem bridge_translates_callback_outcome (c : IoCall) (s : QCryptoTLSSession) :
  installed (io_dir c) s = true ->
  (cb_ret (io_out c) = QCRYPTO_TLS_SESSION_ERR_BLOCK ->
     value (bridge_call c s) = mkBridgeRet (-1) (Some EAGAIN))
  /\ (cb_ret (io_out c) < 0 ->
      cb_ret (io_out c) <> QCRYPTO_TLS_SESSION_ERR_BLOCK ->
        value (bridge_call c s) = mkBridgeRet (-1) (Some EIO)
        /\ slot (io_dir c) (state (bridge_call c s)) = cb_err (io_out c))
  /\ (0 <= cb_ret (io_out c) ->
        value (bridge_call c s) = mkBridgeRet (cb_ret (io_out c)) None).
Proof.
  intros Hin. destruct (bridge_call_installed c s Hin) as [Hv Hs].
  rewrite Hv. repeat split.
  - intros ->. apply bridge_translate_block.
  - now apply bridge_translate_failure.
  - exact Hs.
  - apply bridge_translate_count.
Qed.

(** C10: without the callback of its direction, push and pull return -1
    with errno EIO, make no step at all (no callback call, no mutex
    operation, no release of an error) and leave the session as it was. *)
Theorem bridge_without_callback (c : IoCall) (s : QCryptoTLSSession) :
  installed (io_dir c) s = false ->
  bridge_call c s = (mkBridgeRet (-1) (Some EIO), s, []).
Proof.
  destruct c as [[|] out]; unfold installed, bridge_call; cbn [io_dir io_out].
  - rewrite push_eq. destruct (writeFunc s); [discriminate | reflexivity].
  - rewrite pull_eq. destruct (readFunc s); [discriminate | reflexivity].
Qed.

(** The steps of push and of pull when the guard is engaged. *)
Lemma push_steps_guarded (out : CallbackResult) (s : QCryptoTLSSession) :
  installed DirWrite s = true -> lockEnabled s = true ->
  steps (qcrypto_tls_session_push out s)
  = [EvUnlock; EvErrorFree DirWrite; EvCallback DirWrite; EvLock].
Proof.
  unfold installed. rewrite push_eq.
  destruct (writeFunc s); [intros _ | discriminate].
  intros ->. reflexivity.
Qed.

Lemma pull_steps_guarded (out : CallbackResult) (s : QCryptoTLSSession) :
  installed DirRead s = true -> lockEnabled s = true ->
  steps (qcrypto_tls_session_pull out s)
  = [EvErrorFree DirRead; EvUnlock; EvCallback DirRead; EvLock].
Proof.
  unfold installed. rewrite pull_eq.
  destruct (readFunc s); [intros _ | discriminate].
  intros ->. reflexivity.
Qed.


(** *** Engine calls *)

Lemma set_errors_id (s : QCryptoTLSSession) :
  s = set_rerr (rerr s) (set_werr (werr s) s).
Proof. destruct s. reflexivity. Qed.

Lemma bridge_call_state (c : IoCall) (s : QCryptoTLSSession) :
  exists r w, state (bridge_call c s) = set_rerr r (set_werr w s).
Proof.
  destruct c as [[|] out]; unfold bridge_call; cbn [io_dir io_out].
  - rewrite push_eq. destruct (writeFunc s).
    + exists (rerr s), (cb_err out). destruct s. reflexivity.
    + exists (rerr s), (werr s). apply set_errors_id.
  - rewrite pull_eq. destruct (readFunc s).
    + exists (cb_err out), (werr s). destruct s. reflexivity.
    + exists (rerr s), (werr s). apply set_errors_id.
Qed.

Lemma bridge_calls_cons (c : IoCall) (cs : list IoCall) (s : QCryptoTLSSession) :
  bridge_calls (c :: cs) s
  = (tt, state (bridge_calls cs (state (bridge_call c s))),
     steps (bridge_call c s) ++ steps (bridge_calls cs (state (bridge_call c s)))).
Proof.
  cbn [bridge_calls]. rewrite bind_eq.
  destruct (value (bridge_calls cs (state (bridge_call c s)))). reflexivity.
Qed.

Lemma bridge_calls_state (cs : list IoCall) (s : QCryptoTLSSession) :
  exists r w, state (bridge_calls cs s) = set_rerr r (set_werr w s).
Proof.
  revert s. induction cs as [| c cs IH]; intros s.
  - exists (rerr s), (werr s). apply set_errors_id.
  - rewrite bridge_calls_cons. cbn [state fst snd].
    destruct (bridge_call_state c s) as (r1 & w1 & E1). rewrite E1.
    destruct (IH (set_rerr r1 (set_werr w1 s))) as (r2 & w2 & E2). rewrite E2.
    exists r2, w2. reflexivity.
Qed.

Lemma engine_call_eq (f : EngineFn) (run : EngineRun) (s : QCryptoTLSSession) :
  engine_call f run s
  = (run_ret run, state (bridge_calls (run_io run) s),
     EvEngine f :: steps (bridge_calls (run_io run) s) ++ [EvEngineRet f]).
Proof.
  unfold engine_call, bind, emit, ret.
  destruct (bridge_calls (run_io run) s) as [[u s1] t1]. reflexivity.
Qed.

Lemma engine_query_eq (f : EngineFn) (answer : Z) (s : QCryptoTLSSession) :
  engine_query f answer s = (answer, s, [EvEngine f; EvEngineRet f]).
Proof. reflexivity. Qed.

Lemma write_eq (run : EngineRun) (s : QCryptoTLSSession) :
  write run s =
  let s1 := state (bridge_calls (run_io run) s) in
  let r := run_ret run in
  let tr := (if lockEnabled s then [EvLock] else [])
            ++ EvEngine gnutls_record_send :: steps (bridge_calls (run_io run) s)
            ++ EvEngineRet gnutls_record_send
               :: (if lockEnabled s then [EvUnlock] else []) in
  if r <? 0 then
    if r =? GNUTLS_E_AGAIN then ((QCRYPTO_TLS_SESSION_ERR_BLOCK, None), s1, tr)
    else match werr s1 with
         | Some e => ((-1, Some e), set_werr None s1, tr)
         | None =>
             ((-1, Some (String.append "Cannot write to TLS channel: "
                                       (gnutls_strerror r))), s1, tr)
         end
  else ((r, None), s1, tr).
Proof.
  unfold qcrypto_tls_session_write, bind, get_session.
  destruct (bridge_calls_state (run_io run) s) as (r1 & w1 & E).
  destruct (lockEnabled s) eqn:HL; cbn [when emit ret];
    rewrite engine_call_eq, E; cbn -[String.append]; rewrite HL;
    (destruct (run_ret run <? 0);
     [destruct (run_ret run =? GNUTLS_E_AGAIN); [| destruct w1] |]);
    cbn -[String.append]; rewrite <- ?app_assoc; reflexivity.
Qed.

Lemma read_eq (run : EngineRun) (g : bool) (s : QCryptoTLSSession) :
  read run g s =
  let s1 := state (bridge_calls (run_io run) s) in
  let r := run_ret run in
  let tr := (if lockEnabled s then [EvLock] else [])
            ++ EvEngine gnutls_record_recv :: steps (bridge_calls (run_io run) s)
            ++ EvEngineRet gnutls_record_recv
               :: (if lockEnabled s then [EvUnlock] else []) in
  if r <? 0 then
    if r =? GNUTLS_E_AGAIN then ((QCRYPTO_TLS_SESSION_ERR_BLOCK, None), s1, tr)
    else if (r =? GNUTLS_E_PREMATURE_TERMINATION) && g then ((0, None), s1, tr)
    else match rerr s1 with
         | Some e => ((-1, Some e), set_rerr None s1, tr)
         | None =>
             ((-1, Some (String.append "Cannot read from TLS channel: "
                                       (gnutls_strerror r))), s1, tr)
         end
  else ((r, None), s1, tr).
Proof.
  unfold qcrypto_tls_session_read, bind, get_session.
  destruct (bridge_calls_state (run_io run) s) as (r1 & w1 & E).
  destruct (lockEnabled s) eqn:HL; cbn [when emit ret];
    rewrite engine_call_eq, E; cbn -[String.append]; rewrite HL;
    (destruct (run_ret run <? 0);
     [destruct (run_ret run =? GNUTLS_E_AGAIN);
      [| destruct ((run_ret run =? GNUTLS_E_PREMATURE_TERMINATION) && g);
         [| destruct r1]] |]);
    cbn -[String.append]; rewrite <- ?app_assoc; reflexivity.
Qed.

(** The error a callback stored during the last bridge call of an engine
    call is in the slot of that direction when the engine call returns. *)
Lemma captured_error_in_slot (f : EngineFn) (cs : list IoCall) (c : IoCall)
                             (ret_code : Z) (s : QCryptoTLSSession) :
  installed (io_dir c) s = true ->
  slot (io_dir c) (state (engine_call f (mkEngineRun (cs ++ [c]) ret_code) s))
  = cb_err (io_out c).
Proof.
  intros Hin. rewrite engine_call_eq. cbn [state fst snd run_io].
  revert s Hin. induction cs as [| c0 cs IH]; intros s Hin.
  - cbn [app]. rewrite bridge_calls_cons. cbn [state fst snd bridge_calls ret].
    now apply bridge_call_installed.
  - cbn [app]. rewrite bridge_calls_cons. cbn [state fst snd].
    apply IH. destruct (bridge_call_state c0 s) as (r1 & w1 & E). rewrite E.
    destruct (io_dir c); exact Hin.
Qed.

(** C5: when a write or a read returns -1 and the slot of its direction
    holds an error when the engine call returns, the caller gets that very
    error, not the text made from the engine's code, and the slot is empty
    afterwards. *)
Theorem transport_error_takes_precedence
    (run : EngineRun) (g : bool) (s : QCryptoTLSSession) (e : Error) :
  (fst (value (write run s)) = -1 ->
   slot DirWrite (state (engine_call gnutls_record_send run s)) = Some e ->
     snd (value (write run s)) = Some e
     /\ slot DirWrite (state (write run s)) = None)
  /\ (fst (value (read run g s)) = -1 ->
      slot DirRead (state (engine_call gnutls_record_recv run s)) = Some e ->
        snd (value (read run g s)) = Some e
        /\ slot DirRead (state (read run g s)) = None).
Proof.
  rewrite write_eq, read_eq, !engine_call_eq. cbn zeta. cbn [state fst snd slot].
  split.
  - destruct (run_ret run <? 0) eqn:Hneg.
    + destruct (run_ret run =? GNUTLS_E_AGAIN).
      * cbn [value fst]. unfold QCRYPTO_TLS_SESSION_ERR_BLOCK. discriminate.
      * intros _ Hslot. rewrite Hslot. cbn. split; reflexivity.
    + cbn [value fst]. intros Hr. apply Z.ltb_ge in Hneg. lia.
  - destruct (run_ret run <? 0) eqn:Hneg.
    + destruct (run_ret run =? GNUTLS_E_AGAIN).
      * cbn [value fst]. unfold QCRYPTO_TLS_SESSION_ERR_BLOCK. discriminate.
      * destruct ((run_ret run =? GNUTLS_E_PREMATURE_TERMINATION) && g).
        -- cbn [value fst]. discriminate.
        -- intros _ Hslot. rewrite Hslot. cbn. split; reflexivity.
    + cbn [value fst]. intros Hr. apply Z.ltb_ge in Hneg. lia.
Qed.

(** C8: when the engine reports a premature end of the stream, a read with
    graceful termination returns 0 and stores no error, and a read without
    it returns -1 and stores an error. *)
Theorem read_premature_termination (run : EngineRun) (s : QCryptoTLSSession) :
  run_ret run = GNUTLS_E_PREMATURE_TERMINATION ->
  value (read run true s) = (0, None)
  /\ fst (value (read run false s)) = -1
  /\ snd (value (read run false s)) <> None.
Proof.
  intros Hr. rewrite !read_eq, Hr. cbn -[String.append bridge_calls].
  repeat split.
  - destruct (rerr (state (bridge_calls (run_io run) s))); reflexivity.
  - destruct (rerr (state (bridge_calls (run_io run) s))); discriminate.
Qed.


(** *** Handshake and bye steps *)

Lemma bye_eq (env : ByeEnv) (s : QCryptoTLSSession) :
  bye env s =
  if negb (handshakeComplete s) then ((0, None), s, [])
  else
    let s1 := state (bridge_calls (run_io (bye_run env)) s) in
    let r := run_ret (bye_run env) in
    let tr := (if lockEnabled s then [EvLock] else [])
              ++ EvEngine gnutls_bye :: steps (bridge_calls (run_io (bye_run env)) s)
              ++ EvEngineRet gnutls_bye
                 :: (if lockEnabled s then [EvUnlock] else []) in
    if r =? 0 then ((QCRYPTO_TLS_BYE_COMPLETE, None), s1, tr)
    else if (r =? GNUTLS_E_INTERRUPTED) || (r =? GNUTLS_E_AGAIN) then
      ((if bye_direction env =? 0 then QCRYPTO_TLS_BYE_RECVING
        else QCRYPTO_TLS_BYE_SENDING, None), s1,
       tr ++ [EvEngine gnutls_record_get_direction;
              EvEngineRet gnutls_record_get_direction])
    else
      ((-1, Some (failure_message gnutls_strerror "TLS termination failed: " r s1)),
       set_werr None (set_rerr None s1),
       tr ++ [EvErrorFree DirRead; EvErrorFree DirWrite]).
Proof.
  unfold qcrypto_tls_session_bye, bind, get_session.
  destruct (handshakeComplete s); [| reflexivity]. cbn [negb].
  destruct (bridge_calls_state (run_io (bye_run env)) s) as (r1 & w1 & E).
  destruct (lockEnabled s) eqn:HL; cbn [when emit ret];
    rewrite engine_call_eq, E; cbn -[String.append failure_message]; rewrite HL;
    (destruct (run_ret (bye_run env) =? 0);
     [| destruct ((run_ret (bye_run env) =? GNUTLS_E_INTERRUPTED)
                  || (run_ret (bye_run env) =? GNUTLS_E_AGAIN))]);
    cbn -[String.append failure_message]; rewrite <- ?app_assoc; reflexivity.
Qed.

(** The return value of a handshake step and what it does to
    [handshakeComplete]. *)
Lemma handshake_outcome (env : HandshakeEnv) (s : QCryptoTLSSession) :
  let r := run_ret (hs_run env) in
  fst (value (handshake env s))
  = (if r =? 0 then QCRYPTO_TLS_HANDSHAKE_COMPLETE
     else if (r =? GNUTLS_E_INTERRUPTED) || (r =? GNUTLS_E_AGAIN)
          then (if hs_direction env =? 0 then QCRYPTO_TLS_HANDSHAKE_RECVING
                else QCRYPTO_TLS_HANDSHAKE_SENDING)
          else -1)
  /\ handshakeComplete (state (handshake env s))
     = (if r =? 0 then true else handshakeComplete s).
Proof.
  cbn zeta. unfold qcrypto_tls_session_handshake, bind.
  destruct (bridge_calls_state (run_io (hs_run env)) s) as (r1 & w1 & E).
  rewrite engine_call_eq. rewrite E.
  destruct (run_ret (hs_run env) =? 0).
  - destruct CONFIG_GNUTLS_BUG1717_WORKAROUND; cbn [when].
    + unfold bug1717_workaround, bind. rewrite !engine_query_eq.
      cbn -[String.append failure_message Z.eqb].
      destruct (requireThreadSafety s).
      * destruct ((hs_version env =? GNUTLS_TLS1_3)
                  && negb (hs_cipher env =? GNUTLS_CIPHER_CHACHA20_POLY1305));
          split; reflexivity.
      * split; reflexivity.
    + split; reflexivity.
  - destruct ((run_ret (hs_run env) =? GNUTLS_E_INTERRUPTED)
              || (run_ret (hs_run env) =? GNUTLS_E_AGAIN)).
    + rewrite engine_query_eq. split; reflexivity.
    + split; reflexivity.
Qed.


(** *** The guard *)

Lemma guard_ok_app (must : EngineFn -> bool) (tr1 tr2 : list Event) (held : bool) :
  guard_ok must held (tr1 ++ tr2)
  = match guard_ok must held tr1 with
    | Some held' => guard_ok must held' tr2
    | None => None
    end.
Proof.
  revert held. induction tr1 as [| ev tr1 IH]; intros held; [reflexivity |].
  destruct ev; cbn [app guard_ok]; try apply IH.
  - destruct held; [reflexivity | apply IH].
  - destruct held; [apply IH | reflexivity].
  - destruct held; [reflexivity | apply IH].
  - destruct (must f && negb held); [reflexivity | apply IH].
  - destruct (must f && negb held); [reflexivity | apply IH].
Qed.

(** A bridge call made with the guard held and engaged releases it around
    the callback and holds it again when it returns to the engine. *)
Lemma bridge_call_guarded (must : EngineFn -> bool) (c : IoCall)
                          (s : QCryptoTLSSession) :
  lockEnabled s = true ->
  guard_ok must true (steps (bridge_call c s)) = Some true.
Proof.
  intros HL. destruct c as [[|] out]; unfold bridge_call; cbn [io_dir io_out].
  - rewrite push_eq. destruct (writeFunc s); [rewrite HL |]; reflexivity.
  - rewrite pull_eq. destruct (readFunc s); [rewrite HL |]; reflexivity.
Qed.

Lemma bridge_calls_guarded (must : EngineFn -> bool) (cs : list IoCall)
                           (s : QCryptoTLSSession) :
  lockEnabled s = true ->
  guard_ok must true (steps (bridge_calls cs s)) = Some true.
Proof.
  revert s. induction cs as [| c cs IH]; intros s HL; [reflexivity |].
  rewrite bridge_calls_cons. cbn [steps snd].
  rewrite guard_ok_app, (bridge_call_guarded must c s HL).
  apply IH. destruct (bridge_call_state c s) as (r1 & w1 & E). rewrite E. exact HL.
Qed.

(** The steps of an engine call that is bracketed by lock and unlock. *)
Lemma bracketed_call_guarded (must : EngineFn -> bool) (f : EngineFn)
                             (cs : list IoCall) (s : QCryptoTLSSession) :
  lockEnabled s = true ->
  guard_ok must false
    ([EvLock] ++ EvEngine f :: steps (bridge_calls cs s)
             ++ EvEngineRet f :: [EvUnlock])
  = Some false.
Proof.
  intros HL. cbn [app guard_ok]. rewrite andb_false_r.
  rewrite guard_ok_app, (bridge_calls_guarded must cs s HL).
  cbn [guard_ok]. rewrite andb_false_r. reflexivity.
Qed.

(** C3, as the code has it: with the guard engaged, a write, a read and a
    bye step lock the guard, make their engine call (record send, record
    receive, bye) while holding it, release it around every transport
    callback, take it again after the callback and unlock it before they
    return.  For write and read this covers every engine call they make;
    for bye it covers the call that does I/O. *)
Theorem guard_brackets_record_calls
    (run : EngineRun) (g : bool) (env : ByeEnv) (s : QCryptoTLSSession) :
  lockEnabled s = true ->
  guard_ok every_engine_call false (steps (write run s)) = Some false
  /\ guard_ok every_engine_call false (steps (read run g s)) = Some false
  /\ guard_ok does_io false (steps (bye env s)) = Some false.
Proof.
  intros HL. rewrite write_eq, read_eq, bye_eq. cbn zeta. rewrite HL.
  repeat split.
  - destruct (run_ret run <? 0);
      [destruct (run_ret run =? GNUTLS_E_AGAIN);
       [| destruct (werr (state (bridge_calls (run_io run) s)))] |];
      cbn [steps snd]; now apply bracketed_call_guarded.
  - destruct (run_ret run <? 0);
      [destruct (run_ret run =? GNUTLS_E_AGAIN);
       [| destruct ((run_ret run =? GNUTLS_E_PREMATURE_TERMINATION) && g);
          [| destruct (rerr (state (bridge_calls (run_io run) s)))]] |];
      cbn [steps snd]; now apply bracketed_call_guarded.
  - destruct (negb (handshakeComplete s)); [reflexivity |].
    destruct (run_ret (bye_run env) =? 0);
      [| destruct ((run_ret (bye_run env) =? GNUTLS_E_INTERRUPTED)
                   || (run_ret (bye_run env) =? GNUTLS_E_AGAIN))];
      cbn [steps snd];
      [now apply bracketed_call_guarded | rewrite guard_ok_app ..];
      rewrite (bracketed_call_guarded does_io gnutls_bye _ s HL); reflexivity.
Qed.


(** *** Peer verifier *)

(** Two passes of the [requery:] loop are enough: the second one is made
    with the size the engine asked for. *)
Lemma requery_enough (fuel : nat) (cert : gnutls_x509_crt) :
  (2 <= fuel)%nat ->
  requery fuel cert 1024
  = Some (match crt_dn cert with
          | Some dn => (0, BufDname dn)
          | None => (GNUTLS_E_REQUESTED_DATA_NOT_AVAILABLE, BufUnwritten)
          end).
Proof.
  intros Hfuel. destruct fuel as [| [| fuel]]; [lia | lia |].
  cbn [requery]. unfold gnutls_x509_crt_get_dn.
  destruct (crt_dn cert) as [dn |]; [| reflexivity].
  cbn zeta. destruct (1024 <? Z.of_nat (String.length dn) + 1).
  - cbn [fst snd]. rewrite Z.ltb_irrefl. reflexivity.
  - reflexivity.
Qed.

(** The block for the first certificate stores the buffer of the
    distinguished name in [peername] whatever the tests that follow say. *)
Lemma check_first_enough (fuel : nat) (env : VerifyEnv) (cert : gnutls_x509_crt)
                         (s : QCryptoTLSSession) :
  (2 <= fuel)%nat ->
  check_first gnutls_strerror fuel env cert s
  = Some
      (match crt_dn cert with
       | None =>
           (Some (String.append "Cannot get client distinguished name: "
                    (gnutls_strerror GNUTLS_E_REQUESTED_DATA_NOT_AVAILABLE)),
            set_peername (Some BufUnwritten) s)
       | Some dn =>
           let s' := set_peername (Some (BufDname dn)) s in
           (match check_authz env s' with
            | Some err => Some err
            | None => check_hostname cert s'
            end, s')
       end).
Proof.
  intros Hfuel. unfold check_first. rewrite (requery_enough fuel cert Hfuel).
  destruct (crt_dn cert) as [dn |]; [| reflexivity].
  cbn -[String.append check_authz check_hostname].
  change (set_peername (Some (BufDname dn)) (set_peername (Some BufUnwritten) s))
    with (set_peername (Some (BufDname dn)) s).
  destruct (check_authz env (set_peername (Some (BufDname dn)) s)); [reflexivity |].
  destruct (check_hostname cert (set_peername (Some (BufDname dn)) s)); reflexivity.
Qed.

(** Past the first certificate the loop returns and leaves the session
    alone. *)
Lemma check_chain_rest (fuel : nat) (env : VerifyEnv) (now : Z) (i : nat)
                       (certs : list gnutls_x509_crt) (s : QCryptoTLSSession) :
  i <> O ->
  exists rc e, check_chain gnutls_strerror fuel env now i certs s = Some (rc, e, s).
Proof.
  revert i. induction certs as [| cert rest IH]; intros i Hi.
  - exists 0, None. reflexivity.
  - cbn -[String.append]. unfold reject.
    destruct (crt_init_ret cert <? 0); [eauto |].
    destruct (crt_import_ret cert <? 0); [eauto |].
    destruct (crt_expiration_time cert <? now); [eauto |].
    destruct (crt_activation_time cert >? now); [eauto |].
    destruct i as [| i]; [contradiction |]. cbn [Nat.eqb].
    apply IH. discriminate.
Qed.

(** A client without a hostname never gets past the block for the first
    certificate. *)
Lemma check_first_client_without_hostname
    (fuel : nat) (env : VerifyEnv) (cert : gnutls_x509_crt) (s : QCryptoTLSSession) :
  (2 <= fuel)%nat ->
  endpoint (creds s) = QCRYPTO_TLS_CREDS_ENDPOINT_CLIENT ->
  hostname s = None ->
  exists err s', check_first gnutls_strerror fuel env cert s = Some (Some err, s').
Proof.
  intros Hfuel Hep Hhost. rewrite (check_first_enough fuel env cert s Hfuel).
  destruct (crt_dn cert) as [dn |]; [| eauto].
  cbn zeta. destruct (check_authz env _); [eauto |].
  unfold check_hostname. cbn [hostname creds set_peername].
  rewrite Hhost, Hep. cbn [endpoint_eqb]. eauto.
Qed.

(** C2: for a client session whose X.509 credentials ask for peer
    verification and which has no hostname, the credentials check returns
    -1 with an error stored; it never returns 0. *)
Theorem client_without_hostname_rejected
    (fuel : nat) (env : VerifyEnv) (s : QCryptoTLSSession) :
  (2 <= fuel)%nat ->
  creds_type (creds s) = TYPE_QCRYPTO_TLS_CREDS_X509 ->
  verifyPeer (creds s) = true ->
  endpoint (creds s) = QCRYPTO_TLS_CREDS_ENDPOINT_CLIENT ->
  hostname s = None ->
  exists err s', check_credentials fuel env s = Some (-1, Some err, s').
Proof.
  intros Hfuel Hty Hverify Hep Hhost.
  unfold qcrypto_tls_session_check_credentials. rewrite Hty, Hverify.
  unfold qcrypto_tls_session_check_certificate, reject. cbn zeta.
  destruct (env_time env =? -1); [eauto |].
  destruct (env_verify_ret env <? 0); [eauto |].
  destruct (negb (env_verify_status env =? 0)); [eauto |].
  unfold gnutls_certificate_get_peers.
  destruct (env_peers env) as [| cert rest]; [eauto |].
  cbn -[String.append check_first]. unfold reject.
  destruct (crt_init_ret cert <? 0); [eauto |].
  destruct (crt_import_ret cert <? 0); [eauto |].
  destruct (crt_expiration_time cert <? env_time env); [eauto |].
  destruct (crt_activation_time cert >? env_time env); [eauto |].
  destruct (check_first_client_without_hostname fuel env cert s Hfuel Hep Hhost)
    as (err & s' & E).
  rewrite E. eauto.
Qed.


(** One credentials check: it returns, and it changes the session only
    when it is the certificate check of an X.509 session and gets as far
    as reading the distinguished name of the first certificate of the
    chain.  It then stores the buffer of that name in [peername], before
    the authorization and hostname tests and whatever they say; the buffer
    holds the name when the certificate has one. *)
Lemma leaf_name_stored_by_check
    (fuel : nat) (env : VerifyEnv) (s : QCryptoTLSSession) :
  (2 <= fuel)%nat ->
  exists rc e s',
    check_credentials fuel env s = Some (rc, e, s')
    /\ match (if verifies_x509 s then leaf_inspected env else None) with
       | None => s' = s
       | Some cert =>
           exists buf,
             s' = set_peername (Some buf) s
             /\ qcrypto_tls_session_get_peer_name s' = Some buf
             /\ (forall dn, crt_dn cert = Some dn -> buf = BufDname dn)
       end.
Proof.
  intros Hfuel.
  unfold qcrypto_tls_session_check_credentials, verifies_x509.
  destruct (creds_type (creds s)); try (do 3 eexists; split; reflexivity).
  destruct (verifyPeer (creds s)); [| do 3 eexists; split; reflexivity].
  unfold qcrypto_tls_session_check_certificate, leaf_inspected, reject. cbn zeta.
  destruct (env_time env =? -1); [do 3 eexists; split; reflexivity |].
  destruct (env_verify_ret env <? 0); [do 3 eexists; split; reflexivity |].
  destruct (negb (env_verify_status env =? 0));
    [do 3 eexists; split; reflexivity |].
  unfold gnutls_certificate_get_peers.
  destruct (env_peers env) as [| cert rest]; [do 3 eexists; split; reflexivity |].
  cbn -[String.append check_first]. unfold reject.
  destruct (crt_init_ret cert <? 0); [do 3 eexists; split; reflexivity |].
  destruct (crt_import_ret cert <? 0); [do 3 eexists; split; reflexivity |].
  destruct (crt_expiration_time cert <? env_time env);
    [do 3 eexists; split; reflexivity |].
  destruct (crt_activation_time cert >? env_time env);
    [do 3 eexists; split; reflexivity |].
  cbn [orb]. rewrite (check_first_enough fuel env cert s Hfuel).
  destruct (crt_dn cert) as [dn |].
  - cbn zeta.
    destruct (match check_authz env (set_peername (Some (BufDname dn)) s) with
              | Some err => Some err
              | None => check_hostname cert (set_peername (Some (BufDname dn)) s)
              end) as [err |].
    + do 3 eexists. split; [reflexivity |].
      exists (BufDname dn). repeat split. now intros dn' [= <-].
    + destruct (check_chain_rest fuel env (env_time env) 1 rest
                  (set_peername (Some (BufDname dn)) s)) as (rc & e & E);
        [discriminate |].
      rewrite E. do 3 eexists. split; [reflexivity |].
      exists (BufDname dn). repeat split. now intros dn' [= <-].
  - do 3 eexists. split; [reflexivity |].
    exists BufUnwritten. repeat split. discriminate.
Qed.

(** *** Session construction *)

Lemma endpoint_eqb_neq (a b : QCryptoTLSCredsEndpoint) :
  a <> b -> endpoint_eqb a b = false.
Proof. destruct a, b; intros H; try reflexivity; now contradiction H. Qed.

(** C6: whatever the variant of the credentials, when their endpoint is
    not the one asked for, construction returns NULL with the error
    "Credentials endpoint doesn't match session"; [gnutls_init] is not
    called and the handle of the session that is released is still NULL. *)
Theorem role_mismatch_fails_without_engine_handle
    (env : NewEnv) (c : QCryptoTLSCreds) (host authz : option string)
    (ep : QCryptoTLSCredsEndpoint) :
  endpoint c <> ep ->
  fst (session_new env c host authz ep)
  = (None, Some "Credentials endpoint doesn't match session")
  /\ ~ In (EvEngine gnutls_init) (snd (session_new env c host authz ep))
  /\ handle (state (session_new_body gnutls_strerror CONFIG_TLS_PRIORITY env c ep
                                     (session_alloc c host authz))) = None.
Proof.
  intros Hne. unfold qcrypto_tls_session_new, session_new_body.
  rewrite (endpoint_eqb_neq _ _ Hne). cbn.
  repeat split. intros [H | [H | [H | [H | []]]]]; discriminate.
Qed.


(** *** The handshake flag over the life of a session *)

Lemma set_peername_id (s : QCryptoTLSSession) : s = set_peername (peername s) s.
Proof. destruct s. reflexivity. Qed.

(** Verification writes no field but [peername], with any fuel. *)
Lemma check_chain_state (fuel : nat) (env : VerifyEnv) (now : Z)
    (certs : list gnutls_x509_crt) (i : nat) (s : QCryptoTLSSession) (v : Verdict) :
  check_chain gnutls_strerror fuel env now i certs s = Some v ->
  exists p, snd v = set_peername p s.
Proof.
  revert i s. induction certs as [| cert rest IH]; intros i s.
  - intros [= <-]. exists (peername s). apply set_peername_id.
  - cbn -[String.append]. unfold reject.
    destruct (crt_init_ret cert <? 0);
      [intros [= <-]; exists (peername s); apply set_peername_id |].
    destruct (crt_import_ret cert <? 0);
      [intros [= <-]; exists (peername s); apply set_peername_id |].
    destruct (crt_expiration_time cert <? now);
      [intros [= <-]; exists (peername s); apply set_peername_id |].
    destruct (crt_activation_time cert >? now);
      [intros [= <-]; exists (peername s); apply set_peername_id |].
    destruct (Nat.eqb i 0); [| apply IH].
    unfold check_first. destruct (requery fuel cert 1024) as [[rc buf] |];
      [| discriminate].
    cbn -[String.append check_authz check_hostname].
    destruct (rc <? 0); [intros [= <-]; eexists; reflexivity |].
    destruct (check_authz env _); [intros [= <-]; eexists; reflexivity |].
    destruct (check_hostname cert _); [intros [= <-]; eexists; reflexivity |].
    intros H. destruct (IH _ _ H) as (p & E). exists p. rewrite E. reflexivity.
Qed.

Lemma check_credentials_state (fuel : nat) (env : VerifyEnv)
                              (s : QCryptoTLSSession) (v : Verdict) :
  check_credentials fuel env s = Some v ->
  exists p, snd v = set_peername p s.
Proof.
  unfold qcrypto_tls_session_check_credentials,
    qcrypto_tls_session_check_certificate, reject.
  destruct (creds_type (creds s));
    try (intros [= <-]; exists (peername s); apply set_peername_id).
  destruct (verifyPeer (creds s));
    [| intros [= <-]; exists (peername s); apply set_peername_id].
  cbn zeta.
  destruct (env_time env =? -1);
    [intros [= <-]; exists (peername s); apply set_peername_id |].
  destruct (env_verify_ret env <? 0);
    [intros [= <-]; exists (peername s); apply set_peername_id |].
  destruct (negb (env_verify_status env =? 0));
    [intros [= <-]; exists (peername s); apply set_peername_id |].
  destruct (gnutls_certificate_get_peers env);
    [| intros [= <-]; exists (peername s); apply set_peername_id].
  apply check_chain_state.
Qed.

(** Every call but a handshake step that completes leaves
    [handshakeComplete] as it was. *)
Lemma exec_handshakeComplete (op : Op) (s s' : QCryptoTLSSession) :
  call op s = Some s' ->
  handshakeComplete s' = (if completes op s then true else handshakeComplete s).
Proof.
  destruct op; cbn [exec completes_handshake];
    try (intros [= <-]; reflexivity).
  - (* handshake *)
    intros [= <-]. destruct (handshake_outcome env s) as [Hv Hs].
    rewrite Hv, Hs. unfold QCRYPTO_TLS_HANDSHAKE_COMPLETE,
      QCRYPTO_TLS_HANDSHAKE_RECVING, QCRYPTO_TLS_HANDSHAKE_SENDING.
    destruct (run_ret (hs_run env) =? 0); [reflexivity |].
    destruct ((run_ret (hs_run env) =? GNUTLS_E_INTERRUPTED)
              || (run_ret (hs_run env) =? GNUTLS_E_AGAIN));
      [destruct (hs_direction env =? 0) |]; reflexivity.
  - (* check credentials *)
    destruct (check_credentials fuel env s) as [v |] eqn:E; [| discriminate].
    cbn [option_map]. intros [= <-].
    destruct (check_credentials_state fuel env s v E) as (p & ->). reflexivity.
  - (* write *)
    intros [= <-]. rewrite write_eq. cbn zeta.
    destruct (bridge_calls_state (run_io run) s) as (r1 & w1 & E). rewrite E.
    destruct (run_ret run <? 0);
      [destruct (run_ret run =? GNUTLS_E_AGAIN); [| destruct w1] |]; reflexivity.
  - (* read *)
    intros [= <-]. rewrite read_eq. cbn zeta.
    destruct (bridge_calls_state (run_io run) s) as (r1 & w1 & E). rewrite E.
    destruct (run_ret run <? 0);
      [destruct (run_ret run =? GNUTLS_E_AGAIN);
       [| destruct ((run_ret run =? GNUTLS_E_PREMATURE_TERMINATION)
                    && gracefulTermination); [| destruct r1]] |]; reflexivity.
  - (* bye *)
    intros [= <-]. rewrite bye_eq. cbn zeta.
    destruct (bridge_calls_state (run_io (bye_run env)) s) as (r1 & w1 & E).
    rewrite E. destruct (negb (handshakeComplete s)); [reflexivity |].
    destruct (run_ret (bye_run env) =? 0);
      [| destruct ((run_ret (bye_run env) =? GNUTLS_E_INTERRUPTED)
                   || (run_ret (bye_run env) =? GNUTLS_E_AGAIN))]; reflexivity.
  - (* key size *)
    intros [= <-]. unfold qcrypto_tls_session_get_key_size, bind.
    rewrite !engine_query_eq. destruct (ssf =? 0); reflexivity.
Qed.

Lemma exec_all_keeps_complete (ops : list Op) (s s' : QCryptoTLSSession) :
  calls ops s = Some s' ->
  handshakeComplete s = true -> handshakeComplete s' = true.
Proof.
  revert s. induction ops as [| op ops IH]; intros s.
  - now intros [= <-].
  - cbn [exec_all]. destruct (call op s) as [s1 |] eqn:E; [| discriminate].
    intros Hrest Hs. apply (IH s1 Hrest).
    rewrite (exec_handshakeComplete op s s1 E), Hs.
    now destruct (completes op s).
Qed.

(** C7: a call is a handshake step returning COMPLETE exactly when it can
    change [handshakeComplete], and it sets it; once the flag is set,
    whether by that call or before it, it is still set after every further
    sequence of calls (reads, writes, bye steps, further handshake steps,
    verification), whatever they return. *)
Theorem handshake_complete_set_once_never_reset
    (op : Op) (ops : list Op) (s s1 s2 : QCryptoTLSSession) :
  call op s = Some s1 ->
  calls ops s1 = Some s2 ->
  (completes op s = true ->
     handshakeComplete s1 = true /\ handshakeComplete s2 = true)
  /\ (handshakeComplete s = true ->
      handshakeComplete s1 = true /\ handshakeComplete s2 = true)
  /\ (handshakeComplete s1 <> handshakeComplete s -> completes op s = true).
Proof.
  intros Hop Hops. pose proof (exec_handshakeComplete op s s1 Hop) as H1.
  assert (Hkeep : handshakeComplete s1 = true -> handshakeComplete s2 = true)
    by apply (exec_all_keeps_complete ops s1 s2 Hops).
  split; [| split].
  - intros Hc. rewrite Hc in H1. auto.
  - intros Hs. rewrite Hs in H1.
    assert (handshakeComplete s1 = true) by (now destruct (completes op s)).
    auto.
  - intros Hchg. rewrite H1 in Hchg. destruct (completes op s); [reflexivity |].
    now contradiction Hchg.
Qed.

(** *** What a call leaves alone *)

(** The value and the session of a handshake step. *)
Lemma handshake_eq (env : HandshakeEnv) (s : QCryptoTLSSession) :
  let s1 := state (bridge_calls (run_io (hs_run env)) s) in
  let r := run_ret (hs_run env) in
  value (handshake env s)
  = (if r =? 0 then (QCRYPTO_TLS_HANDSHAKE_COMPLETE, None)
     else if (r =? GNUTLS_E_INTERRUPTED) || (r =? GNUTLS_E_AGAIN)
          then (if hs_direction env =? 0 then QCRYPTO_TLS_HANDSHAKE_RECVING
                else QCRYPTO_TLS_HANDSHAKE_SENDING, None)
          else (-1, Some (failure_message gnutls_strerror
                                          "TLS handshake failed: " r s1)))
  /\ state (handshake env s)
     = (if r =? 0 then
          set_handshakeComplete true
            (if engages_guard CONFIG_GNUTLS_BUG1717_WORKAROUND env s
             then set_lockEnabled true s1 else s1)
        else if (r =? GNUTLS_E_INTERRUPTED) || (r =? GNUTLS_E_AGAIN) then s1
             else set_werr None (set_rerr None s1)).
Proof.
  cbn zeta. unfold qcrypto_tls_session_handshake, bind, engages_guard.
  destruct (bridge_calls_state (run_io (hs_run env)) s) as (r1 & w1 & E).
  rewrite engine_call_eq. rewrite E.
  destruct (run_ret (hs_run env) =? 0).
  - destruct CONFIG_GNUTLS_BUG1717_WORKAROUND; cbn [when andb].
    + unfold bug1717_workaround, bind. rewrite !engine_query_eq.
      cbn -[String.append failure_message Z.eqb].
      destruct (requireThreadSafety s); cbn [andb].
      * destruct (hs_version env =? GNUTLS_TLS1_3); cbn [andb];
          [destruct (hs_cipher env =? GNUTLS_CIPHER_CHACHA20_POLY1305) |];
          split; reflexivity.
      * split; reflexivity.
    + split; reflexivity.
  - destruct ((run_ret (hs_run env) =? GNUTLS_E_INTERRUPTED)
              || (run_ret (hs_run env) =? GNUTLS_E_AGAIN)).
    + rewrite engine_query_eq. split; reflexivity.
    + split; reflexivity.
Qed.

Lemma write_frame (run : EngineRun) (s : QCryptoTLSSession) :
  exists r w, state (write run s) = set_rerr r (set_werr w s).
Proof.
  rewrite write_eq. cbn zeta.
  destruct (bridge_calls_state (run_io run) s) as (r1 & w1 & E). rewrite E.
  destruct (run_ret run <? 0);
    [destruct (run_ret run =? GNUTLS_E_AGAIN); [| destruct w1] |];
    cbn [state fst snd];
    first [exists r1, w1; reflexivity | exists r1, None; reflexivity].
Qed.

Lemma read_frame (run : EngineRun) (g : bool) (s : QCryptoTLSSession) :
  exists r w, state (read run g s) = set_rerr r (set_werr w s).
Proof.
  rewrite read_eq. cbn zeta.
  destruct (bridge_calls_state (run_io run) s) as (r1 & w1 & E). rewrite E.
  destruct (run_ret run <? 0);
    [destruct (run_ret run =? GNUTLS_E_AGAIN);
     [| destruct ((run_ret run =? GNUTLS_E_PREMATURE_TERMINATION) && g);
        [| destruct r1]] |];
    cbn [state fst snd];
    first [exists r1, w1; reflexivity | exists None, w1; reflexivity].
Qed.

Lemma bye_frame (env : ByeEnv) (s : QCryptoTLSSession) :
  exists r w, state (bye env s) = set_rerr r (set_werr w s).
Proof.
  rewrite bye_eq. cbn zeta.
  destruct (bridge_calls_state (run_io (bye_run env)) s) as (r2 & w2 & E).
  rewrite E. destruct (negb (handshakeComplete s)).
  - exists (rerr s), (werr s). apply set_errors_id.
  - destruct (run_ret (bye_run env) =? 0);
      [| destruct ((run_ret (bye_run env) =? GNUTLS_E_INTERRUPTED)
                   || (run_ret (bye_run env) =? GNUTLS_E_AGAIN))];
      cbn [state fst snd];
      first [exists r2, w2; reflexivity | exists None, None; reflexivity].
Qed.

(** X9: A write, a read and a bye step change no field of the session but the
    two error slots: callbacks, names, flags and the handle are as before. *)
Theorem record_calls_change_only_error_slots
    (run : EngineRun) (g : bool) (env : ByeEnv) (s : QCryptoTLSSession) :
  (exists r w, state (write run s) = set_rerr r (set_werr w s))
  /\ (exists r w, state (read run g s) = set_rerr r (set_werr w s))
  /\ (exists r w, state (bye env s) = set_rerr r (set_werr w s)).
Proof.
  rewrite write_eq, read_eq, bye_eq. cbn zeta.
  destruct (bridge_calls_state (run_io run) s) as (r1 & w1 & E1).
  destruct (bridge_calls_state (run_io (bye_run env)) s) as (r2 & w2 & E2).
  rewrite E1, E2. repeat split.
  - destruct (run_ret run <? 0);
      [destruct (run_ret run =? GNUTLS_E_AGAIN); [| destruct w1] |];
      cbn [state fst snd];
      first [exists r1, w1; reflexivity | exists r1, None; reflexivity].
  - destruct (run_ret run <? 0);
      [destruct (run_ret run =? GNUTLS_E_AGAIN);
       [| destruct ((run_ret run =? GNUTLS_E_PREMATURE_TERMINATION) && g);
          [| destruct r1]] |];
      cbn [state fst snd];
      first [exists r1, w1; reflexivity | exists None, w1; reflexivity].
  - destruct (negb (handshakeComplete s)).
    + exists (rerr s), (werr s). apply set_errors_id.
    + destruct (run_ret (bye_run env) =? 0);
        [| destruct ((run_ret (bye_run env) =? GNUTLS_E_INTERRUPTED)
                     || (run_ret (bye_run env) =? GNUTLS_E_AGAIN))];
        cbn [state fst snd];
        first [exists r2, w2; reflexivity | exists None, None; reflexivity].
Qed.

(** X10: A handshake step that has to wait for the transport (it returns
    SENDING or RECVING) changes no field of the session but the two error
    slots, so it can be repeated any number of times. *)
Theorem blocked_handshake_step_changes_only_error_slots
    (env : HandshakeEnv) (s : QCryptoTLSSession) :
  fst (value (handshake env s)) = QCRYPTO_TLS_HANDSHAKE_SENDING
  \/ fst (value (handshake env s)) = QCRYPTO_TLS_HANDSHAKE_RECVING ->
  snd (value (handshake env s)) = None
  /\ exists r w, state (handshake env s) = set_rerr r (set_werr w s).
Proof.
  destruct (handshake_eq env s) as [Hv Hs]. rewrite Hv, Hs.
  destruct (bridge_calls_state (run_io (hs_run env)) s) as (r1 & w1 & E).
  rewrite E.
  unfold QCRYPTO_TLS_HANDSHAKE_COMPLETE, QCRYPTO_TLS_HANDSHAKE_SENDING,
    QCRYPTO_TLS_HANDSHAKE_RECVING.
  destruct (run_ret (hs_run env) =? 0).
  - cbn [fst]. intros [H | H]; discriminate.
  - destruct ((run_ret (hs_run env) =? GNUTLS_E_INTERRUPTED)
              || (run_ret (hs_run env) =? GNUTLS_E_AGAIN)).
    + intros _. split; [reflexivity | exists r1, w1; reflexivity].
    + cbn [fst]. intros [H | H]; discriminate.
Qed.

(** X8: An error is stored through [errp] exactly when the call returns -1:
    for a write, a read, a handshake step and a bye step. *)
Theorem error_stored_iff_minus_one
    (run : EngineRun) (g : bool) (henv : HandshakeEnv) (benv : ByeEnv)
    (s : QCryptoTLSSession) :
  (snd (value (write run s)) <> None <-> fst (value (write run s)) = -1)
  /\ (snd (value (read run g s)) <> None <-> fst (value (read run g s)) = -1)
  /\ (snd (value (handshake henv s)) <> None
      <-> fst (value (handshake henv s)) = -1)
  /\ (snd (value (bye benv s)) <> None <-> fst (value (bye benv s)) = -1).
Proof.
  destruct (handshake_eq henv s) as [Hv _]. rewrite Hv.
  rewrite write_eq, read_eq, bye_eq. cbn zeta.
  unfold QCRYPTO_TLS_SESSION_ERR_BLOCK, QCRYPTO_TLS_HANDSHAKE_COMPLETE,
    QCRYPTO_TLS_HANDSHAKE_SENDING, QCRYPTO_TLS_HANDSHAKE_RECVING,
    QCRYPTO_TLS_BYE_COMPLETE, QCRYPTO_TLS_BYE_SENDING, QCRYPTO_TLS_BYE_RECVING.
  repeat split.
  all: repeat match goal with
         | |- context [if ?b then _ else _] => destruct b eqn:?
         | |- context [match ?x with Some _ => _ | None => _ end] => destruct x
         end;
       cbn -[String.append failure_message];
       try congruence; try discriminate; try reflexivity;
       try (intros _; discriminate); try (intros H; now contradiction H).
  all: try (intros H; exfalso; rewrite H in *; discriminate).
  all: intros ->; discriminate.
Qed.

(** *** The two error slots *)

Lemma bridge_call_other_slot (c : IoCall) (s : QCryptoTLSSession) :
  (io_dir c = DirWrite -> rerr (state (bridge_call c s)) = rerr s)
  /\ (io_dir c = DirRead -> werr (state (bridge_call c s)) = werr s).
Proof.
  destruct c as [[|] out]; unfold bridge_call; cbn [io_dir io_out];
    rewrite ?push_eq, ?pull_eq; split; try discriminate; intros _.
  - destruct (writeFunc s); reflexivity.
  - destruct (readFunc s); reflexivity.
Qed.

Lemma bridge_calls_other_slot (cs : list IoCall) (s : QCryptoTLSSession) :
  (Forall (fun c => io_dir c = DirWrite) cs ->
     rerr (state (bridge_calls cs s)) = rerr s)
  /\ (Forall (fun c => io_dir c = DirRead) cs ->
      werr (state (bridge_calls cs s)) = werr s).
Proof.
  revert s. induction cs as [| c cs IH]; intros s; [split; reflexivity |].
  rewrite bridge_calls_cons. cbn [state fst snd].
  destruct (IH (state (bridge_call c s))) as [IHw IHr].
  destruct (bridge_call_other_slot c s) as [Hw Hr].
  split; intros Hall; inversion Hall as [| c' cs' Hc Hcs]; subst.
  - rewrite (IHw Hcs). now apply Hw.
  - rewrite (IHr Hcs). now apply Hr.
Qed.

(** X12: The slots are independent by direction: a write during which the
    engine only sends leaves the pending read error as it is, and a read
    during which the engine only receives leaves the pending write error
    as it is, whatever the call returns. *)
Theorem other_direction_slot_untouched
    (run : EngineRun) (g : bool) (s : QCryptoTLSSession) :
  (Forall (fun c => io_dir c = DirWrite) (run_io run) ->
     rerr (state (write run s)) = rerr s)
  /\ (Forall (fun c => io_dir c = DirRead) (run_io run) ->
      werr (state (read run g s)) = werr s).
Proof.
  rewrite write_eq, read_eq. cbn zeta.
  destruct (bridge_calls_other_slot (run_io run) s) as [Hw Hr].
  split; intros Hall.
  - rewrite <- (Hw Hall).
    destruct (run_ret run <? 0);
      [destruct (run_ret run =? GNUTLS_E_AGAIN);
       [| destruct (werr (state (bridge_calls (run_io run) s)))] |];
      reflexivity.
  - rewrite <- (Hr Hall).
    destruct (run_ret run <? 0);
      [destruct (run_ret run =? GNUTLS_E_AGAIN);
       [| destruct ((run_ret run =? GNUTLS_E_PREMATURE_TERMINATION) && g);
          [| destruct (rerr (state (bridge_calls (run_io run) s)))]] |];
      reflexivity.
Qed.

(** X11: A handshake step and a bye step that return -1 leave both error slots
    empty, and their message ends with the read error that was pending
    when the engine returned, whether or not a write error was pending
    too; with no read error it ends with the pending write error. *)
Theorem failed_step_reports_and_clears_slots
    (henv : HandshakeEnv) (benv : ByeEnv) (s : QCryptoTLSSession) :
  (fst (value (handshake henv s)) = -1 ->
     let s1 := state (engine_call gnutls_handshake (hs_run henv) s) in
     let r := run_ret (hs_run henv) in
     rerr (state (handshake henv s)) = None
     /\ werr (state (handshake henv s)) = None
     /\ snd (value (handshake henv s))
        = Some (failure_message gnutls_strerror "TLS handshake failed: " r s1)
     /\ (forall e, rerr s1 = Some e ->
           failure_message gnutls_strerror "TLS handshake failed: " r s1
           = String.append "TLS handshake failed: "
               (String.append (gnutls_strerror r) (String.append ": " e)))
     /\ (forall e, rerr s1 = None -> werr s1 = Some e ->
           failure_message gnutls_strerror "TLS handshake failed: " r s1
           = String.append "TLS handshake failed: "
               (String.append (gnutls_strerror r) (String.append ": " e))))
  /\ (fst (value (bye benv s)) = -1 ->
      let s1 := state (engine_call gnutls_bye (bye_run benv) s) in
      rerr (state (bye benv s)) = None
      /\ werr (state (bye benv s)) = None
      /\ snd (value (bye benv s))
         = Some (failure_message gnutls_strerror "TLS termination failed: "
                                 (run_ret (bye_run benv)) s1)).
Proof.
  destruct (handshake_eq henv s) as [Hv Hs]. rewrite Hv, Hs.
  rewrite bye_eq, !engine_call_eq. cbn zeta. cbn [state fst snd].
  unfold QCRYPTO_TLS_HANDSHAKE_COMPLETE, QCRYPTO_TLS_HANDSHAKE_SENDING,
    QCRYPTO_TLS_HANDSHAKE_RECVING, QCRYPTO_TLS_BYE_COMPLETE,
    QCRYPTO_TLS_BYE_SENDING, QCRYPTO_TLS_BYE_RECVING.
  split.
  - destruct (run_ret (hs_run henv) =? 0); [discriminate |].
    destruct ((run_ret (hs_run henv) =? GNUTLS_E_INTERRUPTED)
              || (run_ret (hs_run henv) =? GNUTLS_E_AGAIN)).
    + destruct (hs_direction henv =? 0); discriminate.
    + intros _. repeat split.
      * intros e He. unfold failure_message. rewrite He. reflexivity.
      * intros e Hr Hw. unfold failure_message. rewrite Hr, Hw. reflexivity.
  - destruct (negb (handshakeComplete s)); [discriminate |].
    destruct (run_ret (bye_run benv) =? 0); [discriminate |].
    destruct ((run_ret (bye_run benv) =? GNUTLS_E_INTERRUPTED)
              || (run_ret (bye_run benv) =? GNUTLS_E_AGAIN)).
    + destruct (bye_direction benv =? 0); discriminate.
    + intros _. repeat split.
Qed.

(** X14: A bye step calls [gnutls_bye] exactly when the handshake has
    completed; before that it returns 0 without any step and without
    touching the session. *)
Theorem bye_reaches_engine_iff_handshake_complete
    (env : ByeEnv) (s : QCryptoTLSSession) :
  (In (EvEngine gnutls_bye) (steps (bye env s)) <-> handshakeComplete s = true)
  /\ (handshakeComplete s = false -> bye env s = ((0, None), s, [])).
Proof.
  rewrite bye_eq. cbn zeta. destruct (handshakeComplete s); cbn [negb].
  - split; [| discriminate]. split; [reflexivity | intros _].
    assert (Hin : forall tl, In (EvEngine gnutls_bye)
              ((if lockEnabled s then [EvLock] else [])
               ++ EvEngine gnutls_bye :: tl)).
    { intros tl. apply in_or_app. right. left. reflexivity. }
    destruct (run_ret (bye_run env) =? 0);
      [| destruct ((run_ret (bye_run env) =? GNUTLS_E_INTERRUPTED)
                   || (run_ret (bye_run env) =? GNUTLS_E_AGAIN))];
      cbn [steps snd]; try apply Hin; apply in_or_app; left; apply Hin.
  - split; [| reflexivity]. split; [intros [] | discriminate].
Qed.

(** *** When the guard is engaged *)

Lemma exec_guard_flags (op : Op) (s s' : QCryptoTLSSession) :
  call op s = Some s' ->
  lockEnabled s'
  = lockEnabled s || call_engages_guard CONFIG_GNUTLS_BUG1717_WORKAROUND op s
  /\ requireThreadSafety s' = requireThreadSafety s || is_require_thread_safety op.
Proof.
  destruct op; cbn [exec call_engages_guard is_require_thread_safety];
    rewrite ?orb_false_r.
  - intros [= <-]. split; reflexivity.
  - intros [= <-]. split; [reflexivity | cbn; now rewrite orb_true_r].
  - intros [= <-]. destruct (handshake_eq env s) as [_ Hs]. rewrite Hs.
    destruct (bridge_calls_state (run_io (hs_run env)) s) as (r1 & w1 & E).
    rewrite E. unfold engages_guard.
    destruct (run_ret (hs_run env) =? 0).
    + rewrite andb_true_r.
      destruct (CONFIG_GNUTLS_BUG1717_WORKAROUND && requireThreadSafety s
                && (hs_version env =? GNUTLS_TLS1_3)
                && negb (hs_cipher env =? GNUTLS_CIPHER_CHACHA20_POLY1305));
        cbn; rewrite ?orb_true_r, ?orb_false_r; split; reflexivity.
    + rewrite andb_false_r. cbn [andb]. rewrite orb_false_r.
      destruct ((run_ret (hs_run env) =? GNUTLS_E_INTERRUPTED)
                || (run_ret (hs_run env) =? GNUTLS_E_AGAIN)); split; reflexivity.
  - destruct (check_credentials fuel env s) as [v |] eqn:E; [| discriminate].
    cbn [option_map]. intros [= <-].
    destruct (check_credentials_state fuel env s v E) as (p & ->).
    split; reflexivity.
  - intros [= <-].
    destruct (write_frame run s) as (r & w & E).
    rewrite E. split; reflexivity.
  - intros [= <-].
    destruct (read_frame run gracefulTermination s) as (r & w & E).
    rewrite E. split; reflexivity.
  - intros [= <-]. split; reflexivity.
  - intros [= <-].
    destruct (bye_frame env s) as (r & w & E).
    rewrite E. split; reflexivity.
  - intros [= <-]. unfold qcrypto_tls_session_get_key_size, bind.
    rewrite !engine_query_eq. destruct (ssf =? 0); split; reflexivity.
  - intros [= <-]. split; reflexivity.
Qed.

Lemma exec_all_guard_stays (ops : list Op) (s s' : QCryptoTLSSession) :
  calls ops s = Some s' -> lockEnabled s = true -> lockEnabled s' = true.
Proof.
  revert s. induction ops as [| op ops IH]; intros s.
  - now intros [= <-].
  - cbn [exec_all]. destruct (call op s) as [s1 |] eqn:E; [| discriminate].
    intros Hrest Hs. apply (IH s1 Hrest).
    destruct (exec_guard_flags op s s1 E) as [-> _]. now rewrite Hs.
Qed.

(** X15: [lockEnabled] changes in one way only: a call sets it exactly when it
    is a handshake step that completes in a build with the countermeasure,
    on a session for which thread safety was required, with TLS 1.3 and a
    cipher other than CHACHA20-POLY1305.  No call clears it: once set it
    is still set after any further sequence of calls. *)
Theorem guard_engaged_once_and_for_all
    (op : Op) (ops : list Op) (s s1 s2 : QCryptoTLSSession) :
  call op s = Some s1 ->
  calls ops s1 = Some s2 ->
  lockEnabled s1
  = lockEnabled s || call_engages_guard CONFIG_GNUTLS_BUG1717_WORKAROUND op s
  /\ (lockEnabled s1 = true -> lockEnabled s2 = true).
Proof.
  intros Hop Hops. split.
  - now destruct (exec_guard_flags op s s1 Hop).
  - apply (exec_all_guard_stays ops s1 s2 Hops).
Qed.

(** X16: A session on which thread safety is never required never engages the
    guard: over any sequence of calls without
    [qcrypto_tls_session_require_thread_safety], [lockEnabled] stays
    false. *)
Theorem guard_never_engaged_unless_required
    (ops : list Op) (s s' : QCryptoTLSSession) :
  calls ops s = Some s' ->
  forallb (fun op => negb (is_require_thread_safety op)) ops = true ->
  requireThreadSafety s = false ->
  lockEnabled s = false ->
  requireThreadSafety s' = false /\ lockEnabled s' = false.
Proof.
  revert s. induction ops as [| op ops IH]; intros s.
  - intros [= <-]. auto.
  - cbn [exec_all forallb]. destruct (call op s) as [s1 |] eqn:E; [| discriminate].
    intros Hrest Hall Hreq Hlock. apply andb_prop in Hall as [Hop Hall].
    destruct (exec_guard_flags op s s1 E) as [HL HR].
    apply (IH s1 Hrest Hall).
    + rewrite HR, Hreq. now destruct (is_require_thread_safety op).
    + rewrite HL, Hlock. destruct op; try reflexivity.
      cbn [call_engages_guard orb]. unfold engages_guard. rewrite Hreq.
      now rewrite andb_false_r.
Qed.

Lemma bridge_calls_mutex_untouched (cs : list IoCall) (s : QCryptoTLSSession) :
  lockEnabled s = false -> mutex_untouched (steps (bridge_calls cs s)) = true.
Proof.
  unfold mutex_untouched.
  revert s. induction cs as [| c cs IH]; intros s HL; [reflexivity |].
  rewrite bridge_calls_cons. cbn [steps snd]. rewrite forallb_app.
  apply andb_true_intro. split.
  - destruct c as [[|] out]; unfold bridge_call; cbn [io_dir io_out];
      rewrite ?push_eq, ?pull_eq.
    + destruct (writeFunc s); [rewrite HL |]; reflexivity.
    + destruct (readFunc s); [rewrite HL |]; reflexivity.
  - apply IH. destruct (bridge_call_state c s) as (r1 & w1 & E). rewrite E.
    exact HL.
Qed.

Lemma handshake_steps (env : HandshakeEnv) (s : QCryptoTLSSession) :
  exists tl,
    steps (handshake env s)
    = EvEngine gnutls_handshake
        :: steps (bridge_calls (run_io (hs_run env)) s)
        ++ EvEngineRet gnutls_handshake :: tl
    /\ mutex_untouched tl = true
    /\ io_engine_calls tl = O.
Proof.
  unfold qcrypto_tls_session_handshake, bind.
  destruct (bridge_calls_state (run_io (hs_run env)) s) as (r1 & w1 & E).
  rewrite engine_call_eq. rewrite E.
  destruct (run_ret (hs_run env) =? 0).
  - destruct CONFIG_GNUTLS_BUG1717_WORKAROUND; cbn [when].
    + unfold bug1717_workaround, bind. rewrite !engine_query_eq.
      cbn -[String.append failure_message Z.eqb].
      destruct (requireThreadSafety s).
      * destruct ((hs_version env =? GNUTLS_TLS1_3)
                  && negb (hs_cipher env =? GNUTLS_CIPHER_CHACHA20_POLY1305));
          cbn -[String.append failure_message Z.eqb];
          rewrite <- app_assoc; eexists; repeat split; reflexivity.
      * cbn -[String.append failure_message Z.eqb].
        rewrite <- app_assoc. eexists. repeat split; reflexivity.
    + cbn -[String.append failure_message Z.eqb].
      rewrite <- app_assoc. eexists. repeat split; reflexivity.
  - destruct ((run_ret (hs_run env) =? GNUTLS_E_INTERRUPTED)
              || (run_ret (hs_run env) =? GNUTLS_E_AGAIN)).
    + rewrite engine_query_eq.
      cbn -[String.append failure_message Z.eqb].
      rewrite <- app_assoc. eexists. repeat split; reflexivity.
    + cbn -[String.append failure_message Z.eqb].
      rewrite <- app_assoc. eexists. repeat split; reflexivity.
Qed.

(** X17: While the guard is not engaged no call touches the mutex: a write, a
    read, a handshake step and a bye step make neither a lock nor an
    unlock, in themselves or in the bridge calls made during them. *)
Theorem disengaged_guard_is_never_touched
    (run : EngineRun) (g : bool) (henv : HandshakeEnv) (benv : ByeEnv)
    (s : QCryptoTLSSession) :
  lockEnabled s = false ->
  mutex_untouched (steps (write run s)) = true
  /\ mutex_untouched (steps (read run g s)) = true
  /\ mutex_untouched (steps (handshake henv s)) = true
  /\ mutex_untouched (steps (bye benv s)) = true.
Proof.
  intros HL. rewrite write_eq, read_eq, bye_eq. cbn zeta. rewrite HL.
  pose proof (bridge_calls_mutex_untouched (run_io run) s HL) as Hrun.
  pose proof (bridge_calls_mutex_untouched (run_io (bye_run benv)) s HL) as Hbye.
  unfold mutex_untouched in *.
  repeat split.
  - destruct (run_ret run <? 0);
      [destruct (run_ret run =? GNUTLS_E_AGAIN);
       [| destruct (werr (state (bridge_calls (run_io run) s)))] |];
      cbn [steps snd app forallb is_mutex_op negb andb];
      rewrite forallb_app, Hrun; reflexivity.
  - destruct (run_ret run <? 0);
      [destruct (run_ret run =? GNUTLS_E_AGAIN);
       [| destruct ((run_ret run =? GNUTLS_E_PREMATURE_TERMINATION) && g);
          [| destruct (rerr (state (bridge_calls (run_io run) s)))]] |];
      cbn [steps snd app forallb is_mutex_op negb andb];
      rewrite forallb_app, Hrun; reflexivity.
  - destruct (handshake_steps henv s) as (tl & -> & Htl & _).
    pose proof (bridge_calls_mutex_untouched (run_io (hs_run henv)) s HL) as Hhs.
    unfold mutex_untouched in *.
    cbn [forallb is_mutex_op negb andb]. rewrite forallb_app, Hhs.
    cbn [forallb is_mutex_op negb andb]. exact Htl.
  - destruct (negb (handshakeComplete s)); [reflexivity |].
    destruct (run_ret (bye_run benv) =? 0);
      [| destruct ((run_ret (bye_run benv) =? GNUTLS_E_INTERRUPTED)
                   || (run_ret (bye_run benv) =? GNUTLS_E_AGAIN))];
      cbn [steps snd app forallb is_mutex_op negb andb];
      rewrite ?forallb_app, Hbye; reflexivity.
Qed.

(** *** What the peer verifier accepts *)

Lemma cert_in_order_tests (now : Z) (cert : gnutls_x509_crt) :
  cert_in_order now cert = true <->
  (crt_init_ret cert <? 0) = false
  /\ (crt_import_ret cert <? 0) = false
  /\ (crt_expiration_time cert <? now) = false
  /\ (crt_activation_time cert >? now) = false.
Proof.
  unfold cert_in_order.
  destruct (crt_init_ret cert <? 0), (crt_import_ret cert <? 0),
    (crt_expiration_time cert <? now), (crt_activation_time cert >? now);
    cbn; intuition discriminate.
Qed.

(** Past the first certificate the loop accepts exactly the chains whose
    certificates are all in order. *)
Lemma check_chain_rest_accepts (fuel : nat) (env : VerifyEnv) (now : Z) (i : nat)
    (certs : list gnutls_x509_crt) (s : QCryptoTLSSession) :
  i <> O ->
  (Forall (fun cert => cert_in_order now cert = true) certs ->
     check_chain gnutls_strerror fuel env now i certs s = Some (0, None, s))
  /\ (forall e s', check_chain gnutls_strerror fuel env now i certs s
                   = Some (0, e, s') ->
        Forall (fun cert => cert_in_order now cert = true) certs).
Proof.
  revert i. induction certs as [| cert rest IH]; intros i Hi.
  - split; [reflexivity | constructor].
  - destruct i as [| i]; [contradiction |].
    destruct (IH (S (S i))) as [IHa IHb]; [discriminate |].
    cbn -[String.append]. unfold reject. split.
    + intros Hall. inversion Hall as [| c r Hc Hr]; subst.
      apply cert_in_order_tests in Hc as (-> & -> & -> & ->). now apply IHa.
    + intros e s'.
      destruct (crt_init_ret cert <? 0) eqn:H1; [discriminate |].
      destruct (crt_import_ret cert <? 0) eqn:H2; [discriminate |].
      destruct (crt_expiration_time cert <? now) eqn:H3; [discriminate |].
      destruct (crt_activation_time cert >? now) eqn:H4; [discriminate |].
      intros Hrest. constructor; [| now apply (IHb e s')].
      apply cert_in_order_tests. auto.
Qed.

(** When the loop for the name ends with a non-negative code, the
    certificate has a name and the buffer holds it. *)
Lemma requery_success (fuel : nat) (cert : gnutls_x509_crt) (size rc : Z)
                      (buf : DnameBuf) :
  requery fuel cert size = Some (rc, buf) ->
  (rc <? 0) = false ->
  exists dn, crt_dn cert = Some dn /\ buf = BufDname dn.
Proof.
  revert size. induction fuel as [| fuel IH]; intros size; [discriminate |].
  cbn [requery]. unfold gnutls_x509_crt_get_dn.
  destruct (crt_dn cert) as [dn |].
  - cbn zeta. destruct (size <? Z.of_nat (String.length dn) + 1).
    + cbn [fst snd]. change (GNUTLS_E_SHORT_MEMORY_BUFFER <? 0) with true.
      rewrite Z.eqb_refl. apply IH.
    + cbn. intros [= <- <-] _. eauto.
  - cbn. intros [= <- <-]. discriminate.
Qed.

Lemma check_authz_passes (env : VerifyEnv) (s : QCryptoTLSSession) (dn : string) :
  check_authz env (set_peername (Some (BufDname dn)) s) = None <->
  match authzid s with
  | Some id => env_authz env id dn = (true, None)
  | None => True
  end.
Proof.
  unfold check_authz. cbn [authzid peername set_peername buf_text].
  destruct (authzid s) as [id |]; [| tauto].
  destruct (env_authz env id dn) as [[|] [err |]]; cbn [fst snd];
    split; intros H; try discriminate; reflexivity.
Qed.

Lemma check_hostname_passes (cert : gnutls_x509_crt) (s : QCryptoTLSSession)
                            (p : option DnameBuf) :
  check_hostname cert (set_peername p s) = None <->
  match hostname s with
  | Some h => crt_check_hostname cert h = true
  | None => endpoint (creds s) = QCRYPTO_TLS_CREDS_ENDPOINT_SERVER
  end.
Proof.
  unfold check_hostname. cbn [hostname creds set_peername].
  destruct (hostname s) as [h |].
  - destruct (crt_check_hostname cert h); split; intros H;
      try discriminate; reflexivity.
  - destruct (endpoint (creds s)); cbn [endpoint_eqb]; split; intros H;
      try discriminate; reflexivity.
Qed.

(** The certificate check accepts only peers that are acceptable. *)
Lemma check_certificate_sound
    (fuel : nat) (env : VerifyEnv) (s s' : QCryptoTLSSession) (e : option Error) :
  qcrypto_tls_session_check_certificate gnutls_strerror fuel env s
  = Some (0, e, s') ->
  e = None
  /\ exists dn,
       peer_acceptable env s dn
       /\ s' = set_peername (Some (BufDname dn)) s.
Proof.
  unfold qcrypto_tls_session_check_certificate, reject, peer_acceptable.
  cbn zeta.
  destruct (Z.eqb_spec (env_time env) (-1)) as [| Htime]; [discriminate |].
  destruct (Z.ltb_spec (env_verify_ret env) 0) as [| Hret]; [discriminate |].
  destruct (Z.eqb_spec (env_verify_status env) 0) as [Hst |]; [| discriminate].
  cbn [negb]. unfold gnutls_certificate_get_peers.
  destruct (env_peers env) as [| leaf rest]; [discriminate |].
  cbn -[String.append check_first]. unfold reject.
  destruct (crt_init_ret leaf <? 0) eqn:H1; [discriminate |].
  destruct (crt_import_ret leaf <? 0) eqn:H2; [discriminate |].
  destruct (crt_expiration_time leaf <? env_time env) eqn:H3; [discriminate |].
  destruct (crt_activation_time leaf >? env_time env) eqn:H4; [discriminate |].
  unfold check_first.
  destruct (requery fuel leaf 1024) as [[rc buf] |] eqn:Hq; [| discriminate].
  cbn -[String.append check_authz check_hostname].
  destruct (rc <? 0) eqn:Hrc; [discriminate |].
  destruct (requery_success fuel leaf 1024 rc buf Hq Hrc) as (dn & Hdn & ->).
  change (set_peername (Some (BufDname dn)) (set_peername (Some BufUnwritten) s))
    with (set_peername (Some (BufDname dn)) s).
  destruct (check_authz env (set_peername (Some (BufDname dn)) s)) eqn:Ha;
    [discriminate |].
  destruct (check_hostname leaf (set_peername (Some (BufDname dn)) s)) eqn:Hh;
    [discriminate |].
  intros Hrest.
  destruct (check_chain_rest_accepts fuel env (env_time env) 1 rest
              (set_peername (Some (BufDname dn)) s)) as [Hfwd Hbwd];
    [discriminate |].
  pose proof (Hbwd e s' Hrest) as Hall.
  rewrite (Hfwd Hall) in Hrest. injection Hrest as <- <-.
  split; [reflexivity |]. exists dn. split; [| reflexivity].
  repeat split; try assumption.
  - exists leaf, rest. repeat split; try assumption.
    + constructor; [| exact Hall]. apply cert_in_order_tests. auto.
    + now apply (check_hostname_passes leaf s (Some (BufDname dn))).
  - now apply check_authz_passes.
Qed.

(** X1: Acceptance is sound: when the credentials check of an X.509 session
    with peer verification returns 0, the clock and the chain verification
    were in order, the chain is not empty, every certificate of it could
    be imported and is inside its validity window, the first one carries a
    name, the authorization service allowed that name if an identity is
    configured, the first certificate matches the hostname if one is
    configured, a session without hostname is a server, no error is
    stored, and [peername] holds that name. *)
Theorem accepted_peer_passed_every_check
    (fuel : nat) (env : VerifyEnv) (s s' : QCryptoTLSSession) (e : option Error) :
  verifies_x509 s = true ->
  check_credentials fuel env s = Some (0, e, s') ->
  e = None
  /\ exists dn,
       peer_acceptable env s dn
       /\ s' = set_peername (Some (BufDname dn)) s.
Proof.
  unfold verifies_x509, qcrypto_tls_session_check_credentials.
  destruct (creds_type (creds s)); try discriminate.
  intros ->. apply check_certificate_sound.
Qed.

(** X2: Acceptance is complete: a peer that is acceptable for the session is
    accepted, with 0 returned, no error stored and the name of the first
    certificate stored in [peername], where the accessor finds it. *)
Theorem acceptable_peer_is_accepted
    (fuel : nat) (env : VerifyEnv) (s : QCryptoTLSSession) (dn : string) :
  (2 <= fuel)%nat ->
  verifies_x509 s = true ->
  peer_acceptable env s dn ->
  check_credentials fuel env s
  = Some (0, None, set_peername (Some (BufDname dn)) s)
  /\ qcrypto_tls_session_get_peer_name (set_peername (Some (BufDname dn)) s)
     = Some (BufDname dn).
Proof.
  intros Hfuel Hver (Htime & Hret & Hst & (leaf & rest & Hpeers & Hdn & Hall & Hhost)
                     & Hauthz).
  split; [| reflexivity].
  unfold verifies_x509 in Hver. unfold qcrypto_tls_session_check_credentials.
  destruct (creds_type (creds s)); try discriminate. rewrite Hver.
  unfold qcrypto_tls_session_check_certificate. cbn zeta.
  destruct (Z.eqb_spec (env_time env) (-1)) as [| _]; [contradiction |].
  destruct (Z.ltb_spec (env_verify_ret env) 0) as [| _]; [lia |].
  rewrite Hst. cbn [Z.eqb negb].
  unfold gnutls_certificate_get_peers. rewrite Hpeers.
  inversion Hall as [| c r Hleaf Hrest]; subst.
  apply cert_in_order_tests in Hleaf as (H1 & H2 & H3 & H4).
  cbn -[String.append check_first]. rewrite H1, H2, H3, H4.
  rewrite (check_first_enough fuel env leaf s Hfuel), Hdn. cbn zeta.
  apply check_authz_passes in Hauthz. rewrite Hauthz.
  apply (check_hostname_passes leaf s (Some (BufDname dn))) in Hhost.
  rewrite Hhost.
  now apply check_chain_rest_accepts.
Qed.

(** The verdicts of the loop over the chain: 0 without an error, or -1
    with one. *)
Lemma check_chain_verdict (fuel : nat) (env : VerifyEnv) (now : Z)
    (certs : list gnutls_x509_crt) (i : nat) (s : QCryptoTLSSession)
    (rc : Z) (e : option Error) (s' : QCryptoTLSSession) :
  check_chain gnutls_strerror fuel env now i certs s = Some (rc, e, s') ->
  (rc = 0 /\ e = None) \/ (rc = -1 /\ e <> None).
Proof.
  revert i s. induction certs as [| cert rest IH]; intros i s.
  - intros [= <- <- <-]. left. auto.
  - cbn -[String.append]. unfold reject.
    destruct (crt_init_ret cert <? 0);
      [intros [= <- <- <-]; right; split; [reflexivity | discriminate] |].
    destruct (crt_import_ret cert <? 0);
      [intros [= <- <- <-]; right; split; [reflexivity | discriminate] |].
    destruct (crt_expiration_time cert <? now);
      [intros [= <- <- <-]; right; split; [reflexivity | discriminate] |].
    destruct (crt_activation_time cert >? now);
      [intros [= <- <- <-]; right; split; [reflexivity | discriminate] |].
    destruct (Nat.eqb i 0); [| apply IH].
    destruct (check_first gnutls_strerror fuel env cert s) as [[[err |] s1] |];
      [| apply IH | discriminate].
    intros [= <- <- <-]. right. split; [reflexivity | discriminate].
Qed.

(** X5: Verification returns 0 without an error or -1 with one, and it writes
    no field of the session but [peername]: callbacks, error slots, the
    handshake flag and the guard are as before, whatever the verdict. *)
Theorem verification_verdict_and_frame
    (fuel : nat) (env : VerifyEnv) (s s' : QCryptoTLSSession)
    (rc : Z) (e : option Error) :
  check_credentials fuel env s = Some (rc, e, s') ->
  ((rc = 0 /\ e = None) \/ (rc = -1 /\ e <> None))
  /\ exists p, s' = set_peername p s.
Proof.
  intros H. split; [| exact (check_credentials_state fuel env s _ H)].
  revert H.
  unfold qcrypto_tls_session_check_credentials,
    qcrypto_tls_session_check_certificate, reject.
  destruct (creds_type (creds s));
    try (intros [= <- <- <-]; left; split; reflexivity).
  - destruct (verifyPeer (creds s));
      [| intros [= <- <- <-]; left; split; reflexivity].
    cbn zeta.
    destruct (env_time env =? -1);
      [intros [= <- <- <-]; right; split; [reflexivity | discriminate] |].
    destruct (env_verify_ret env <? 0);
      [intros [= <- <- <-]; right; split; [reflexivity | discriminate] |].
    destruct (negb (env_verify_status env =? 0));
      [intros [= <- <- <-]; right; split; [reflexivity | discriminate] |].
    destruct (gnutls_certificate_get_peers env);
      [| intros [= <- <- <-]; right; split; [reflexivity | discriminate]].
    apply check_chain_verdict.
  - intros [= <- <- <-]. right. split; [reflexivity | discriminate].
Qed.

(** X3: A chain with a certificate that is out of order anywhere in it (it
    cannot be imported, it has expired, or it is not yet active) is never
    accepted, whatever its position and whatever the other tests say. *)
Theorem chain_with_certificate_out_of_order_rejected
    (fuel : nat) (env : VerifyEnv) (s s' : QCryptoTLSSession)
    (rc : Z) (e : option Error) (cert : gnutls_x509_crt) :
  verifies_x509 s = true ->
  In cert (env_peers env) ->
  cert_in_order (env_time env) cert = false ->
  check_credentials fuel env s = Some (rc, e, s') ->
  rc = -1 /\ e <> None.
Proof.
  intros Hver Hin Hbad H.
  assert (Hv : (rc = 0 /\ e = None) \/ (rc = -1 /\ e <> None)).
  { revert H.
    unfold qcrypto_tls_session_check_credentials,
      qcrypto_tls_session_check_certificate, reject.
    unfold verifies_x509 in Hver.
    destruct (creds_type (creds s)); try discriminate. rewrite Hver. cbn zeta.
    destruct (env_time env =? -1);
      [intros [= <- <- <-]; right; split; [reflexivity | discriminate] |].
    destruct (env_verify_ret env <? 0);
      [intros [= <- <- <-]; right; split; [reflexivity | discriminate] |].
    destruct (negb (env_verify_status env =? 0));
      [intros [= <- <- <-]; right; split; [reflexivity | discriminate] |].
    destruct (gnutls_certificate_get_peers env);
      [| intros [= <- <- <-]; right; split; [reflexivity | discriminate]].
    apply check_chain_verdict. }
  destruct Hv as [[-> ->] | Hv]; [| exact Hv].
  assert (Hcert : qcrypto_tls_session_check_certificate
                    gnutls_strerror fuel env s = Some (0, None, s')).
  { unfold qcrypto_tls_session_check_credentials in H.
    unfold verifies_x509 in Hver.
    destruct (creds_type (creds s)); try discriminate.
    now rewrite Hver in H. }
  destruct (check_certificate_sound fuel env s s' None Hcert)
    as (_ & dn & (_ & _ & _ & (leaf & rest & Hpeers & _ & Hall & _) & _) & _).
  rewrite Hpeers in Hin. rewrite Forall_forall in Hall.
  rewrite (Hall cert Hin) in Hbad. discriminate.
Qed.

(** X4: A non-zero status of the chain verification is rejected before any
    certificate is looked at, with the session untouched and one reason:
    an insecure algorithm is named before a revocation, a revocation
    before an unknown issuer, an unknown issuer before an untrusted
    certificate, and "Invalid certificate" is the reason when none of the
    four bits is set. *)
Theorem verify_status_reason_precedence
    (fuel : nat) (env : VerifyEnv) (s : QCryptoTLSSession) :
  verifies_x509 s = true ->
  env_time env <> -1 ->
  0 <= env_verify_ret env ->
  env_verify_status env <> 0 ->
  let status := env_verify_status env in
  check_credentials fuel env s = Some (-1, Some (verify_reason status), s)
  /\ verify_reason status
     = (if status_has status GNUTLS_CERT_INSECURE_ALGORITHM
        then "The certificate uses an insecure algorithm"
        else if status_has status GNUTLS_CERT_REVOKED
        then "The certificate has been revoked"
        else if status_has status GNUTLS_CERT_SIGNER_NOT_FOUND
        then "The certificate hasn't got a known issuer"
        else if status_has status GNUTLS_CERT_INVALID
        then "The certificate is not trusted"
        else "Invalid certificate").
Proof.
  intros Hver Htime Hret Hst. cbn zeta. split.
  - unfold verifies_x509 in Hver. unfold qcrypto_tls_session_check_credentials.
    destruct (creds_type (creds s)); try discriminate. rewrite Hver.
    unfold qcrypto_tls_session_check_certificate, reject. cbn zeta.
    destruct (Z.eqb_spec (env_time env) (-1)) as [| _]; [contradiction |].
    destruct (Z.ltb_spec (env_verify_ret env) 0) as [| _]; [lia |].
    destruct (Z.eqb_spec (env_verify_status env) 0) as [| _]; [contradiction |].
    reflexivity.
  - unfold verify_reason.
    destruct (status_has (env_verify_status env) GNUTLS_CERT_INSECURE_ALGORITHM),
      (status_has (env_verify_status env) GNUTLS_CERT_REVOKED),
      (status_has (env_verify_status env) GNUTLS_CERT_SIGNER_NOT_FOUND),
      (status_has (env_verify_status env) GNUTLS_CERT_INVALID); reflexivity.
Qed.

(** X7: The loop that fetches the name ends within two queries of the engine:
    with less than two passes allowed it does not end for a name that
    does not fit in 1024 bytes, and with two or more it ends with the same
    result whatever the bound, the name when the certificate has one. *)
Theorem requery_ends_within_two_passes (fuel : nat) (cert : gnutls_x509_crt) :
  (2 <= fuel)%nat ->
  requery fuel cert 1024 = requery 2 cert 1024
  /\ requery fuel cert 1024 <> None
  /\ (forall dn, crt_dn cert = Some dn ->
        requery fuel cert 1024 = Some (0, BufDname dn)
        /\ (1024 <= Z.of_nat (String.length dn) ->
            requery 1 cert 1024 = None)).
Proof.
  intros Hfuel.
  rewrite (requery_enough fuel cert Hfuel), (requery_enough 2 cert (le_n 2)).
  split; [reflexivity |]. split; [discriminate |].
  intros dn Hdn. rewrite Hdn. split; [reflexivity |].
  intros Hlong. cbn [requery]. unfold gnutls_x509_crt_get_dn. rewrite Hdn.
  cbn zeta.
  destruct (Z.ltb_spec 1024 (Z.of_nat (String.length dn) + 1)) as [_ | Hge];
    [reflexivity | lia].
Qed.

(** X13: An error of an earlier bridge call is not reported later: when the
    last bridge call of a write (of a read) is in its own direction and
    its callback stores no error, a return of -1 carries the text made
    from the engine's code, whatever was in the slot before. *)
Theorem stale_transport_error_not_reported
    (cs : list IoCall) (out : CallbackResult) (code : Z) (g : bool)
    (s : QCryptoTLSSession) :
  cb_err out = None ->
  (installed DirWrite s = true ->
   fst (value (write (mkEngineRun (cs ++ [mkIoCall DirWrite out]) code) s)) = -1 ->
   snd (value (write (mkEngineRun (cs ++ [mkIoCall DirWrite out]) code) s))
   = Some (String.append "Cannot write to TLS channel: " (gnutls_strerror code)))
  /\ (installed DirRead s = true ->
      fst (value (read (mkEngineRun (cs ++ [mkIoCall DirRead out]) code) g s)) = -1 ->
      snd (value (read (mkEngineRun (cs ++ [mkIoCall DirRead out]) code) g s))
      = Some (String.append "Cannot read from TLS channel: "
                            (gnutls_strerror code))).
Proof.
  intros Hnone. split; intros Hin.
  - pose proof (captured_error_in_slot gnutls_record_send cs
                  (mkIoCall DirWrite out) code s Hin) as Hslot.
    rewrite engine_call_eq in Hslot. cbn [state fst snd slot io_dir io_out run_io]
      in Hslot. rewrite Hnone in Hslot.
    rewrite write_eq. cbn zeta. cbn [run_io run_ret]. rewrite Hslot.
    unfold QCRYPTO_TLS_SESSION_ERR_BLOCK.
    destruct (code <? 0) eqn:Hneg.
    + destruct (code =? GNUTLS_E_AGAIN); [discriminate | reflexivity].
    + cbn [value fst]. intros ->. discriminate.
  - pose proof (captured_error_in_slot gnutls_record_recv cs
                  (mkIoCall DirRead out) code s Hin) as Hslot.
    rewrite engine_call_eq in Hslot. cbn [state fst snd slot io_dir io_out run_io]
      in Hslot. rewrite Hnone in Hslot.
    rewrite read_eq. cbn zeta. cbn [run_io run_ret]. rewrite Hslot.
    unfold QCRYPTO_TLS_SESSION_ERR_BLOCK.
    destruct (code <? 0) eqn:Hneg.
    + destruct (code =? GNUTLS_E_AGAIN); [discriminate |].
      destruct ((code =? GNUTLS_E_PREMATURE_TERMINATION) && g);
        [discriminate | reflexivity].
    + cbn [value fst]. intros ->. discriminate.
Qed.

(** *** Construction *)

Lemma endpoint_eqb_eq (a b : QCryptoTLSCredsEndpoint) :
  endpoint_eqb a b = true -> a = b.
Proof. destruct a, b; intros H; try reflexivity; discriminate. Qed.

Lemma session_new_body_success
    (env : NewEnv) (c : QCryptoTLSCreds) (ep : QCryptoTLSCredsEndpoint)
    (s0 : QCryptoTLSSession) :
  let r := session_new_body gnutls_strerror CONFIG_TLS_PRIORITY env c ep s0 in
  value r = None ->
  endpoint c = ep
  /\ state r = set_handle
                 (Some (if endpoint_eqb ep QCRYPTO_TLS_CREDS_ENDPOINT_SERVER
                        then GNUTLS_SERVER else GNUTLS_CLIENT)) s0
  /\ ~ In (EvEngine gnutls_deinit) (steps r).
Proof.
  cbn zeta.
  unfold session_new_body, install_with_suffix, install_x509, bind, when.
  destruct (endpoint_eqb (endpoint c) ep) eqn:Hep; cbn [negb];
    [apply endpoint_eqb_eq in Hep | discriminate].
  rewrite !engine_query_eq.
  destruct (new_init_ret env <? 0); [discriminate |].
  cbn -[String.append Z.ltb priority_string endpoint_eqb In].
  destruct (creds_type c);
    repeat (rewrite ?engine_query_eq;
            cbn -[String.append Z.ltb priority_string endpoint_eqb In];
            match goal with
            | |- context [if ?b then _ else _] => destruct b
            end);
    rewrite ?engine_query_eq;
    cbn -[String.append Z.ltb priority_string endpoint_eqb In];
    try discriminate;
    (intros _; split; [exact Hep | split; [reflexivity |]]);
    cbn; intuition discriminate.
Qed.

(** X19: Construction has two outcomes.  Either it returns a session and no
    error: then the credentials are for the role asked for, the session is
    the zeroed one with the names copied and a handle initialised for that
    role (no callbacks, no pending error, handshake not complete, guard
    not engaged), and the session was not released.  Or it returns NULL
    and an error: then the last thing it did was to release the session,
    [gnutls_deinit] included. *)
Theorem construction_returns_session_or_releases_it
    (env : NewEnv) (c : QCryptoTLSCreds) (host authz : option string)
    (ep : QCryptoTLSCredsEndpoint) :
  match session_new env c host authz ep with
  | (Some s, None, tr) =>
      endpoint c = ep
      /\ s = set_handle
               (Some (if endpoint_eqb ep QCRYPTO_TLS_CREDS_ENDPOINT_SERVER
                      then GNUTLS_SERVER else GNUTLS_CLIENT))
               (session_alloc c host authz)
      /\ ~ In (EvEngine gnutls_deinit) tr
  | (None, Some e, tr) => exists tr0, tr = tr0 ++ free_steps
  | _ => False
  end.
Proof.
  unfold qcrypto_tls_session_new.
  pose proof (session_new_body_success env c ep (session_alloc c host authz))
    as Hbody. cbn zeta in Hbody.
  destruct (value (session_new_body gnutls_strerror CONFIG_TLS_PRIORITY env c ep
                                    (session_alloc c host authz))) as [err |].
  - eexists. reflexivity.
  - now apply Hbody.
Qed.

(** X20: Construction asks the peer for a certificate exactly when it succeeds
    for X.509 credentials in the server role: a client never asks, and
    the anonymous and pre-shared-key variants never ask. *)
Theorem client_certificate_requested_by_x509_server_only
    (env : NewEnv) (c : QCryptoTLSCreds) (host authz : option string)
    (ep : QCryptoTLSCredsEndpoint) (s : QCryptoTLSSession) (tr : list Event) :
  session_new env c host authz ep = (Some s, None, tr) ->
  (In (EvEngine gnutls_certificate_server_set_request) tr
   <-> creds_type c = TYPE_QCRYPTO_TLS_CREDS_X509
       /\ ep = QCRYPTO_TLS_CREDS_ENDPOINT_SERVER).
Proof.
  unfold qcrypto_tls_session_new, session_new_body, install_with_suffix,
    install_x509, bind, when.
  destruct (endpoint_eqb (endpoint c) ep) eqn:Hep; cbn [negb];
    [apply endpoint_eqb_eq in Hep; subst ep | discriminate].
  rewrite !engine_query_eq.
  destruct (new_init_ret env <? 0); [discriminate |].
  cbn -[String.append Z.ltb priority_string endpoint_eqb In].
  destruct (creds_type c);
    repeat (rewrite ?engine_query_eq;
            cbn -[String.append Z.ltb priority_string endpoint_eqb In];
            match goal with
            | |- context [if ?b then _ else _] => destruct b eqn:?
            end);
    rewrite ?engine_query_eq;
    cbn -[String.append Z.ltb priority_string endpoint_eqb In];
    try discriminate;
    intros [= <- <-]; cbn [In];
    (split;
     [ intros H;
       try (split; [reflexivity | now apply endpoint_eqb_eq]);
       exfalso; intuition discriminate
     | intros [Ht He]; try discriminate Ht;
       first [ match goal with
               | Hb : endpoint_eqb _ _ = false |- _ =>
                   rewrite He in Hb; discriminate Hb
               end
             | auto 20 ] ]).
Qed.

(** *** Who writes which field *)

Lemma check_credentials_skipped (fuel : nat) (env : VerifyEnv)
                                (s : QCryptoTLSSession) :
  verifies_x509 s = false ->
  exists rc e, check_credentials fuel env s = Some (rc, e, s).
Proof.
  unfold verifies_x509, qcrypto_tls_session_check_credentials, reject.
  destruct (creds_type (creds s));
    try (intros _; do 2 eexists; reflexivity).
  intros ->. do 2 eexists. reflexivity.
Qed.

Lemma exec_frame (op : Op) (s s' : QCryptoTLSSession) :
  call op s = Some s' ->
  creds s' = creds s /\ hostname s' = hostname s /\ authzid s' = authzid s
  /\ handle s' = handle s
  /\ (peername s' <> peername s ->
      verifies_x509 s = true /\ exists fuel env, op = OpCheckCredentials fuel env).
Proof.
  destruct op; cbn [exec].
  - intros [= <-]. repeat split; cbn in *; congruence.
  - intros [= <-]. repeat split; cbn in *; congruence.
  - intros [= <-]. destruct (handshake_eq env s) as [_ Hs]. rewrite Hs.
    destruct (bridge_calls_state (run_io (hs_run env)) s) as (r1 & w1 & E).
    rewrite E.
    destruct (run_ret (hs_run env) =? 0);
      [destruct (engages_guard CONFIG_GNUTLS_BUG1717_WORKAROUND env s)
      | destruct ((run_ret (hs_run env) =? GNUTLS_E_INTERRUPTED)
                  || (run_ret (hs_run env) =? GNUTLS_E_AGAIN))];
      repeat split; cbn in *; congruence.
  - destruct (check_credentials fuel env s) as [v |] eqn:E; [| discriminate].
    cbn [option_map]. intros [= <-].
    destruct (check_credentials_state fuel env s v E) as (p & Hp).
    rewrite Hp. do 4 (split; [reflexivity |]).
    cbn [peername set_peername]. intros Hchg.
    destruct (verifies_x509 s) eqn:Hver; [split; eauto |].
    destruct (check_credentials_skipped fuel env s Hver) as (rc & e & E').
    rewrite E' in E. injection E as <-. cbn [snd] in Hp.
    apply (f_equal peername) in Hp. cbn [peername set_peername] in Hp.
    congruence.
  - intros [= <-].
    destruct (write_frame run s) as (r & w & E).
    rewrite E. repeat split; cbn in *; congruence.
  - intros [= <-].
    destruct (read_frame run gracefulTermination s) as (r & w & E).
    rewrite E. repeat split; cbn in *; congruence.
  - intros [= <-]. repeat split; cbn in *; congruence.
  - intros [= <-].
    destruct (bye_frame env s) as (r & w & E).
    rewrite E. repeat split; cbn in *; congruence.
  - intros [= <-]. unfold qcrypto_tls_session_get_key_size, bind.
    rewrite !engine_query_eq. destruct (ssf =? 0); repeat split;
      cbn in *; congruence.
  - intros [= <-]. repeat split; cbn in *; congruence.
Qed.

(** X21: What construction fixed stays fixed: over any sequence of calls the
    credentials (and with them the endpoint role and the verification
    policy), the hostname, the authorization identity and the engine
    handle of a session are what they were. *)
Theorem session_configuration_never_changes
    (ops : list Op) (s s' : QCryptoTLSSession) :
  calls ops s = Some s' ->
  creds s' = creds s /\ hostname s' = hostname s /\ authzid s' = authzid s
  /\ handle s' = handle s.
Proof.
  revert s. induction ops as [| op ops IH]; intros s.
  - intros [= <-]. repeat split.
  - cbn [exec_all]. destruct (call op s) as [s1 |] eqn:E; [| discriminate].
    intros Hrest. destruct (IH s1 Hrest) as (-> & -> & -> & ->).
    destruct (exec_frame op s s1 E) as (-> & -> & -> & -> & _).
    repeat split.
Qed.

Lemma DnameBuf_eq_dec (a b : option DnameBuf) : {a = b} + {a <> b}.
Proof. repeat decide equality. Qed.

(** Calls other than a credentials check leave [peername] as it is. *)
Lemma exec_all_keeps_peername (ops : list Op) (s s' : QCryptoTLSSession) :
  calls ops s = Some s' ->
  forallb (fun op => negb (is_check_credentials op)) ops = true ->
  peername s' = peername s.
Proof.
  revert s. induction ops as [| op ops IH]; intros s.
  - now intros [= <-].
  - cbn [exec_all forallb]. destruct (call op s) as [s1 |] eqn:E; [| discriminate].
    intros Hrest Hall. apply andb_prop in Hall as [Hop Hall].
    rewrite (IH s1 Hrest Hall).
    destruct (DnameBuf_eq_dec (peername s1) (peername s)) as [Heq | Hne];
      [exact Heq |].
    destruct (exec_frame op s s1 E) as (_ & _ & _ & _ & Hw).
    destruct (Hw Hne) as (_ & fuel & env & ->). discriminate.
Qed.

(** C1, as the code has it.  A credentials check returns, and it changes
    the session only when it is the certificate check of an X.509 session
    with peer verification and gets as far as reading the distinguished
    name of the first certificate of the chain: it then stores the buffer
    of that name in [peername], before the authorization and hostname
    tests and whatever they say, and the accessor returns that buffer,
    which holds the name when the certificate has one; in every other case
    the session is as it was.  What the check leaves in [peername] is
    still there, and is what the accessor returns, after any sequence of
    calls without a further credentials check.  And no call of the
    interface changes [peername] but a credentials check on an X.509
    session with peer verification. *)
Theorem peer_name_written_at_leaf_inspection_only
    (fuel : nat) (env : VerifyEnv) (s : QCryptoTLSSession) :
  (2 <= fuel)%nat ->
  (exists rc e s',
     check_credentials fuel env s = Some (rc, e, s')
     /\ match (if verifies_x509 s then leaf_inspected env else None) with
        | None => s' = s
        | Some cert =>
            exists buf,
              s' = set_peername (Some buf) s
              /\ qcrypto_tls_session_get_peer_name s' = Some buf
              /\ (forall dn, crt_dn cert = Some dn -> buf = BufDname dn)
        end
     /\ (forall ops s'',
           calls ops s' = Some s'' ->
           forallb (fun op => negb (is_check_credentials op)) ops = true ->
           peername s'' = peername s'
           /\ qcrypto_tls_session_get_peer_name s''
              = qcrypto_tls_session_get_peer_name s'))
  /\ (forall op s0 s1,
        call op s0 = Some s1 ->
        peername s1 <> peername s0 ->
        verifies_x509 s0 = true
        /\ exists fuel' env', op = OpCheckCredentials fuel' env').
Proof.
  intros Hfuel. split.
  - destruct (leaf_name_stored_by_check fuel env s Hfuel)
      as (rc & e & s' & Hcheck & Hleaf).
    exists rc, e, s'. split; [exact Hcheck |]. split; [exact Hleaf |].
    intros ops s'' Hops Hnone.
    pose proof (exec_all_keeps_peername ops s' s'' Hops Hnone) as Hkeep.
    split; [exact Hkeep |].
    unfold qcrypto_tls_session_get_peer_name. now rewrite Hkeep.
  - intros op s0 s1 Hop Hchg.
    destruct (exec_frame op s0 s1 Hop) as (_ & _ & _ & _ & Hw).
    exact (Hw Hchg).
Qed.

(** X6: [peername] has one writer: a call that changes it is a credentials
    check on a session whose credentials are X.509 with peer verification
    enabled.  Sessions with anonymous or pre-shared-key credentials, or
    with verification off, keep the [peername] they have. *)
Theorem peer_name_written_only_by_x509_verification
    (op : Op) (s s' : QCryptoTLSSession) :
  call op s = Some s' ->
  peername s' <> peername s ->
  verifies_x509 s = true /\ exists fuel env, op = OpCheckCredentials fuel env.
Proof.
  intros Hop. now destruct (exec_frame op s s' Hop) as (_ & _ & _ & _ & H).
Qed.

(** *** No loop inside a call *)

Lemma io_engine_calls_app (tr1 tr2 : list Event) :
  io_engine_calls (tr1 ++ tr2) = (io_engine_calls tr1 + io_engine_calls tr2)%nat.
Proof. unfold io_engine_calls. now rewrite filter_app, length_app. Qed.

Lemma callback_calls_app (d : Direction) (tr1 tr2 : list Event) :
  callback_calls d (tr1 ++ tr2)
  = (callback_calls d tr1 + callback_calls d tr2)%nat.
Proof. unfold callback_calls. now rewrite filter_app, length_app. Qed.

Lemma bridge_calls_counts (d : Direction) (cs : list IoCall)
                          (s : QCryptoTLSSession) :
  io_engine_calls (steps (bridge_calls cs s)) = O
  /\ callback_calls d (steps (bridge_calls cs s))
     = (if installed d s then bridge_requests d cs else O).
Proof.
  revert s. induction cs as [| c cs IH]; intros s.
  - split; [reflexivity | now destruct (installed d s)].
  - rewrite bridge_calls_cons. cbn [steps snd].
    rewrite io_engine_calls_app, callback_calls_app.
    destruct (IH (state (bridge_call c s))) as [IHe IHc]. rewrite IHe, IHc.
    assert (Hinst : installed d (state (bridge_call c s)) = installed d s).
    { destruct (bridge_call_state c s) as (r1 & w1 & E). rewrite E.
      now destruct d. }
    rewrite Hinst. unfold bridge_requests. cbn [filter].
    destruct c as [[|] out]; unfold bridge_call; cbn [io_dir io_out];
      rewrite ?push_eq, ?pull_eq; unfold installed.
    + destruct (writeFunc s); [destruct (lockEnabled s) |];
        destruct d; cbn; split; try reflexivity;
        destruct (readFunc s); reflexivity.
    + destruct (readFunc s); [destruct (lockEnabled s) |];
        destruct d; cbn; split; try reflexivity;
        destruct (writeFunc s); reflexivity.
Qed.

(** X18: No call loops or retries inside: a write, a read and a handshake step
    enter the engine for I/O exactly once, a bye step once when the
    handshake has completed and not at all before, and during an engine
    call each bridge call of a direction whose callback is installed calls
    that callback exactly once, whatever the callback answers. *)
Theorem one_engine_call_and_one_callback_per_request
    (run : EngineRun) (g : bool) (henv : HandshakeEnv) (benv : ByeEnv)
    (f : EngineFn) (d : Direction) (s : QCryptoTLSSession) :
  io_engine_calls (steps (write run s)) = 1%nat
  /\ io_engine_calls (steps (read run g s)) = 1%nat
  /\ io_engine_calls (steps (handshake henv s)) = 1%nat
  /\ io_engine_calls (steps (bye benv s))
     = (if handshakeComplete s then 1%nat else O)
  /\ callback_calls d (steps (engine_call f run s))
     = (if installed d s then bridge_requests d (run_io run) else O).
Proof.
  destruct (bridge_calls_counts d (run_io run) s) as [He Hc].
  destruct (bridge_calls_counts d (run_io (bye_run benv)) s) as [Hbe _].
  destruct (bridge_calls_counts d (run_io (hs_run henv)) s) as [Hhe _].
  rewrite write_eq, read_eq, bye_eq, engine_call_eq. cbn zeta.
  repeat split.
  - destruct (run_ret run <? 0);
      [destruct (run_ret run =? GNUTLS_E_AGAIN);
       [| destruct (werr (state (bridge_calls (run_io run) s)))] |];
      cbn [steps snd]; rewrite io_engine_calls_app;
      change (EvEngine gnutls_record_send :: ?tl)
        with ([EvEngine gnutls_record_send] ++ tl);
      rewrite !io_engine_calls_app, He; now destruct (lockEnabled s).
  - destruct (run_ret run <? 0);
      [destruct (run_ret run =? GNUTLS_E_AGAIN);
       [| destruct ((run_ret run =? GNUTLS_E_PREMATURE_TERMINATION) && g);
          [| destruct (rerr (state (bridge_calls (run_io run) s)))]] |];
      cbn [steps snd]; rewrite io_engine_calls_app;
      change (EvEngine gnutls_record_recv :: ?tl)
        with ([EvEngine gnutls_record_recv] ++ tl);
      rewrite !io_engine_calls_app, He; now destruct (lockEnabled s).
  - destruct (handshake_steps henv s) as (tl & -> & _ & Htl).
    change (EvEngine gnutls_handshake :: ?l)
      with ([EvEngine gnutls_handshake] ++ l).
    change (EvEngineRet gnutls_handshake :: tl)
      with ([EvEngineRet gnutls_handshake] ++ tl).
    now rewrite !io_engine_calls_app, Hhe, Htl.
  - destruct (handshakeComplete s); [cbn [negb] | reflexivity].
    destruct (run_ret (bye_run benv) =? 0);
      [| destruct ((run_ret (bye_run benv) =? GNUTLS_E_INTERRUPTED)
                   || (run_ret (bye_run benv) =? GNUTLS_E_AGAIN))];
      cbn [steps snd]; rewrite ?io_engine_calls_app;
      change (EvEngine gnutls_bye :: ?tl) with ([EvEngine gnutls_bye] ++ tl);
      rewrite !io_engine_calls_app, Hbe; now destruct (lockEnabled s).
  - cbn [steps snd].
    change (EvEngine f :: ?l) with ([EvEngine f] ++ l).
    rewrite !callback_calls_app, Hc. cbn.
    destruct (installed d s); lia.
Qed.

End Properties.

(** ** The properties at concrete sessions *)

(** The concrete sessions are sessions the interface produces: the server
    and the client session are what construction returns when the engine
    accepts every request. *)
Lemma concrete_sessions_are_constructed :
  fst (qcrypto_tls_session_new strerror0 "NORMAL" engine_accepts x509_server_creds
         None (Some "tls-acl") QCRYPTO_TLS_CREDS_ENDPOINT_SERVER)
  = (Some server_session, None)
  /\ fst (qcrypto_tls_session_new strerror0 "NORMAL" engine_accepts
            x509_client_creds None None QCRYPTO_TLS_CREDS_ENDPOINT_CLIENT)
     = (Some client_session, None).
Proof. split; reflexivity. Qed.

(** C4: on a session with the guard engaged and the write callback
    installed, push unlocks the guard first and releases the write error
    slot after that; pull, on the same session, releases its slot first
    and unlocks the guard after that. *)
Theorem push_unlocks_before_clearing_slot :
  lockEnabled guarded_session = true
  /\ installed DirWrite guarded_session = true
  /\ installed DirRead guarded_session = true
  /\ steps (qcrypto_tls_session_push reset_by_peer guarded_session)
     = [EvUnlock; EvErrorFree DirWrite; EvCallback DirWrite; EvLock]
  /\ steps (qcrypto_tls_session_pull reset_by_peer guarded_session)
     = [EvErrorFree DirRead; EvUnlock; EvCallback DirRead; EvLock].
Proof. repeat split; reflexivity. Qed.

(** C1 fails twice.  The authorization service denies the peer, the check
    returns -1, and [peername] is set all the same: the accessor returns
    the distinguished name of the rejected peer.  And [peername] is not
    set at most once: a second check on that session, of another chain,
    sets it again, to another name. *)
Lemma peer_name_set_although_authz_denies :
  peername server_session = None
  /\ authzid server_session = Some "tls-acl"
  /\ env_authz authz_denies "tls-acl" "CN=peer" = (false, None)
  /\ qcrypto_tls_session_check_credentials strerror0 2 authz_denies server_session
     = Some (-1, Some "TLS x509 authz check for CN=peer is denied",
             set_peername (Some (BufDname "CN=peer")) server_session)
  /\ qcrypto_tls_session_get_peer_name
       (set_peername (Some (BufDname "CN=peer")) server_session)
     = Some (BufDname "CN=peer")
  /\ qcrypto_tls_session_check_credentials strerror0 2 other_peer_allowed
       (set_peername (Some (BufDname "CN=peer")) server_session)
     = Some (0, None, set_peername (Some (BufDname "CN=other")) server_session)
  /\ qcrypto_tls_session_get_peer_name
       (set_peername (Some (BufDname "CN=other")) server_session)
     = Some (BufDname "CN=other").
Proof. repeat split; reflexivity. Qed.

(** C3 fails twice, on a session with the guard engaged.  A handshake
    step enters the engine without locking the guard first.  And a bye
    step that has to wait for the transport asks the engine for the
    direction after it has unlocked the guard: its call of [gnutls_bye] is
    made with the guard held, but not every engine call it makes. *)
Lemma handshake_and_bye_query_enter_engine_unguarded :
  lockEnabled guarded_session = true
  /\ hd_error (steps (qcrypto_tls_session_handshake strerror0 true second_handshake
                                                    guarded_session))
     = Some (EvEngine gnutls_handshake)
  /\ guard_ok does_io false
       (steps (qcrypto_tls_session_handshake strerror0 true second_handshake
                                             guarded_session))
     = None
  /\ steps (qcrypto_tls_session_bye strerror0 bye_blocked guarded_session)
     = [EvLock; EvEngine gnutls_bye;
        EvUnlock; EvErrorFree DirWrite; EvCallback DirWrite; EvLock;
        EvEngineRet gnutls_bye; EvUnlock;
        EvEngine gnutls_record_get_direction;
        EvEngineRet gnutls_record_get_direction]
  /\ guard_ok every_engine_call false
       (steps (qcrypto_tls_session_bye strerror0 bye_blocked guarded_session))
     = None.
Proof. repeat split; reflexivity. Qed.

(** C9 at the wired session: the write callback reports a reset, the read
    callback would block, and a callback sends five bytes. *)
Lemma bridge_translates_callback_outcome_witness :
  installed DirWrite wired_session = true
  /\ (value (bridge_call (mkIoCall DirWrite reset_by_peer) wired_session)
      = mkBridgeRet (-1) (Some EIO)
      /\ slot DirWrite (state (bridge_call (mkIoCall DirWrite reset_by_peer)
                                           wired_session))
         = Some "Connection reset by peer")
  /\ value (bridge_call (mkIoCall DirRead would_block) wired_session)
     = mkBridgeRet (-1) (Some EAGAIN)
  /\ value (bridge_call (mkIoCall DirWrite sent_all) wired_session)
     = mkBridgeRet 5 None.
Proof.
  split; [reflexivity |]. split; [| split].
  - apply (bridge_translates_callback_outcome
             (mkIoCall DirWrite reset_by_peer) wired_session eq_refl).
    + reflexivity.
    + discriminate.
  - apply (bridge_translates_callback_outcome
             (mkIoCall DirRead would_block) wired_session eq_refl).
    reflexivity.
  - apply (bridge_translates_callback_outcome
             (mkIoCall DirWrite sent_all) wired_session eq_refl).
    discriminate.
Defined.

(** C10 at the server session, where no callback has been installed. *)
Lemma bridge_without_callback_witness :
  installed DirRead server_session = false
  /\ bridge_call (mkIoCall DirRead reset_by_peer) server_session
     = (mkBridgeRet (-1) (Some EIO), server_session, []).
Proof.
  split; [reflexivity |].
  apply (bridge_without_callback (mkIoCall DirRead reset_by_peer) server_session).
  reflexivity.
Defined.

(** C5 at the wired session: the transport is reset during a send and
    during a receive. *)
Lemma transport_error_takes_precedence_witness :
  (snd (value (qcrypto_tls_session_write strerror0 failed_send wired_session))
   = Some "Connection reset by peer"
   /\ slot DirWrite (state (qcrypto_tls_session_write strerror0 failed_send
                                                      wired_session)) = None)
  /\ (snd (value (qcrypto_tls_session_read strerror0 failed_recv false
                                           wired_session))
      = Some "Connection reset by peer"
      /\ slot DirRead (state (qcrypto_tls_session_read strerror0 failed_recv false
                                                       wired_session)) = None).
Proof.
  split.
  - apply (proj1 (transport_error_takes_precedence
                    strerror0 failed_send false wired_session
                    "Connection reset by peer")); reflexivity.
  - apply (proj2 (transport_error_takes_precedence
                    strerror0 failed_recv false wired_session
                    "Connection reset by peer")); reflexivity.
Defined.

(** C8 at the wired session. *)
Lemma read_premature_termination_witness :
  run_ret premature_end = GNUTLS_E_PREMATURE_TERMINATION
  /\ value (qcrypto_tls_session_read strerror0 premature_end true wired_session)
     = (0, None)
  /\ fst (value (qcrypto_tls_session_read strerror0 premature_end false
                                          wired_session)) = -1
  /\ snd (value (qcrypto_tls_session_read strerror0 premature_end false
                                          wired_session)) <> None.
Proof.
  split; [reflexivity |].
  apply (read_premature_termination strerror0 premature_end wired_session).
  reflexivity.
Defined.

(** C3 at the guarded session. *)
Lemma guard_brackets_record_calls_witness :
  lockEnabled guarded_session = true
  /\ guard_ok every_engine_call false
       (steps (qcrypto_tls_session_write strerror0 failed_send guarded_session))
     = Some false
  /\ guard_ok every_engine_call false
       (steps (qcrypto_tls_session_read strerror0 premature_end true
                                        guarded_session))
     = Some false
  /\ guard_ok does_io false
       (steps (qcrypto_tls_session_bye strerror0 bye_blocked guarded_session))
     = Some false.
Proof.
  split; [reflexivity |].
  apply (guard_brackets_record_calls strerror0 failed_send true bye_blocked
                                     guarded_session).
  reflexivity.
Defined.

(** C2 at the client session, with a valid chain and an authorization
    service that allows everything. *)
Lemma client_without_hostname_rejected_witness :
  exists err s',
    qcrypto_tls_session_check_credentials strerror0 2 authz_allows client_session
    = Some (-1, Some err, s').
Proof.
  apply (client_without_hostname_rejected strerror0 2 authz_allows client_session).
  - apply le_n.
  - reflexivity.
  - reflexivity.
  - reflexivity.
  - reflexivity.
Defined.

(** C1 as amended, at the server session whose peer is denied, followed
    by a failed write and a bye step. *)
Lemma peer_name_written_at_leaf_inspection_only_witness :
  exists s' s'',
    qcrypto_tls_session_check_credentials strerror0 2 authz_denies server_session
    = Some (-1, Some "TLS x509 authz check for CN=peer is denied", s')
    /\ qcrypto_tls_session_get_peer_name s' = Some (BufDname "CN=peer")
    /\ exec_all strerror0 true [OpWrite failed_send; OpBye bye_blocked] s'
       = Some s''
    /\ qcrypto_tls_session_get_peer_name s''
       = qcrypto_tls_session_get_peer_name s'.
Proof.
  destruct (peer_name_written_at_leaf_inspection_only
              strerror0 true 2 authz_denies server_session (le_n 2))
    as [(rc & e & s' & Hcheck & Hleaf & Hlater) _].
  assert (Hrun : qcrypto_tls_session_check_credentials
                   strerror0 2 authz_denies server_session
                 = Some (-1, Some "TLS x509 authz check for CN=peer is denied",
                         set_peername (Some (BufDname "CN=peer")) server_session))
    by reflexivity.
  rewrite Hrun in Hcheck. injection Hcheck as <- <- <-.
  eexists. eexists.
  split; [reflexivity |]. split; [reflexivity |]. split; [reflexivity |].
  apply (Hlater [OpWrite failed_send; OpBye bye_blocked]); reflexivity.
Defined.

(** C6 for client credentials and a session asked to be a server. *)
Lemma role_mismatch_fails_without_engine_handle_witness :
  endpoint x509_client_creds <> QCRYPTO_TLS_CREDS_ENDPOINT_SERVER
  /\ fst (qcrypto_tls_session_new strerror0 "NORMAL" engine_accepts
            x509_client_creds None None QCRYPTO_TLS_CREDS_ENDPOINT_SERVER)
     = (None, Some "Credentials endpoint doesn't match session").
Proof.
  assert (H : endpoint x509_client_creds <> QCRYPTO_TLS_CREDS_ENDPOINT_SERVER)
    by discriminate.
  split; [exact H |].
  apply (role_mismatch_fails_without_engine_handle
           strerror0 "NORMAL" engine_accepts x509_client_creds None None
           QCRYPTO_TLS_CREDS_ENDPOINT_SERVER H).
Defined.

(** C7 on the wired session: the handshake completes, then a read fails,
    a write fails and a bye step blocks. *)
Lemma handshake_complete_set_once_never_reset_witness :
  handshakeComplete wired_session = false
  /\ completes_handshake strerror0 true (OpHandshake tls13_handshake) wired_session
     = true
  /\ exists s1 s2,
       exec strerror0 true (OpHandshake tls13_handshake) wired_session = Some s1
       /\ exec_all strerror0 true
            [OpRead failed_recv false; OpWrite failed_send; OpBye bye_blocked] s1
          = Some s2
       /\ handshakeComplete s1 = true /\ handshakeComplete s2 = true.
Proof.
  split; [reflexivity |]. split; [reflexivity |].
  eexists. eexists. split; [reflexivity |]. split; [reflexivity |].
  apply (proj1 (handshake_complete_set_once_never_reset
                  strerror0 true (OpHandshake tls13_handshake)
                  [OpRead failed_recv false; OpWrite failed_send; OpBye bye_blocked]
                  wired_session _ _ eq_refl eq_refl)).
  reflexivity.
Defined.

(** ** The CPU definitions of the MIPS target *)

Lemma cpu_definitions_fold (cpu_model_from_type : string -> string)
    (classes : list string) (acc : list CpuDefinitionInfo) :
  fold_left (fun cpu_list typename =>
               mips_cpu_add_definition cpu_model_from_type typename cpu_list)
            classes acc
  = rev (map (fun typename =>
                mkCpuDefinitionInfo (cpu_model_from_type typename) typename)
             classes) ++ acc.
Proof.
  revert acc. induction classes as [| typename classes IH]; intros acc.
  - reflexivity.
  - cbn [fold_left map rev]. rewrite IH, <- app_assoc. reflexivity.
Qed.

(** X22: The query lists one definition per CPU class, in the reverse of the
    order of the class list, each with the type name of its class and the
    model name derived from it. *)
Theorem cpu_definitions_reverse_class_list
    (cpu_model_from_type : string -> string) (classes : list string) :
  qmp_query_cpu_definitions cpu_model_from_type classes
  = rev (map (fun typename =>
                mkCpuDefinitionInfo (cpu_model_from_type typename) typename)
             classes)
  /\ map q_typename (qmp_query_cpu_definitions cpu_model_from_type classes)
     = rev classes
  /\ map name (qmp_query_cpu_definitions cpu_model_from_type classes)
     = rev (map cpu_model_from_type classes)
  /\ List.length (qmp_query_cpu_definitions cpu_model_from_type classes)
     = List.length classes.
Proof.
  unfold qmp_query_cpu_definitions. rewrite cpu_definitions_fold, app_nil_r.
  repeat split.
  - rewrite map_rev, map_map. cbn [q_typename]. now rewrite map_id.
  - rewrite map_rev, map_map. reflexivity.
  - now rewrite length_rev, length_map.
Qed.

(** ** The further properties at concrete sessions *)

Lemma blocked_handshake_step_changes_only_error_slots_witness :
  fst (value (qcrypto_tls_session_handshake strerror0 true handshake_blocked
                                            wired_session))
  = QCRYPTO_TLS_HANDSHAKE_RECVING
  /\ snd (value (qcrypto_tls_session_handshake strerror0 true handshake_blocked
                                               wired_session)) = None
  /\ exists r w,
       state (qcrypto_tls_session_handshake strerror0 true handshake_blocked
                                            wired_session)
       = set_rerr r (set_werr w wired_session).
Proof.
  split; [reflexivity |].
  apply (blocked_handshake_step_changes_only_error_slots
           strerror0 true handshake_blocked wired_session).
  right. reflexivity.
Defined.

Lemma other_direction_slot_untouched_witness :
  rerr (state (qcrypto_tls_session_write strerror0 failed_send wired_session))
  = rerr wired_session
  /\ werr (state (qcrypto_tls_session_read strerror0 failed_recv false
                                           wired_session))
     = werr wired_session.
Proof.
  split.
  - apply (proj1 (other_direction_slot_untouched
                    strerror0 failed_send false wired_session)).
    repeat constructor.
  - apply (proj2 (other_direction_slot_untouched
                    strerror0 failed_recv false wired_session)).
    repeat constructor.
Defined.

Lemma failed_step_reports_and_clears_slots_witness :
  (rerr (state (qcrypto_tls_session_handshake strerror0 true handshake_reset
                                              wired_session)) = None
   /\ werr (state (qcrypto_tls_session_handshake strerror0 true handshake_reset
                                                 wired_session)) = None
   /\ snd (value (qcrypto_tls_session_handshake strerror0 true handshake_reset
                                                wired_session))
      = Some "TLS handshake failed: GNUTLS error: Connection reset by peer")
  /\ (rerr (state (qcrypto_tls_session_bye strerror0 bye_reset guarded_session))
      = None
      /\ werr (state (qcrypto_tls_session_bye strerror0 bye_reset guarded_session))
         = None).
Proof.
  split.
  - destruct (proj1 (failed_step_reports_and_clears_slots
                       strerror0 true handshake_reset bye_reset wired_session)
                    eq_refl) as (Hr & Hw & Hmsg & _).
    repeat split; assumption.
  - destruct (proj2 (failed_step_reports_and_clears_slots
                       strerror0 true handshake_reset bye_reset guarded_session)
                    eq_refl) as (Hr & Hw & _).
    split; assumption.
Defined.

Lemma bye_reaches_engine_iff_handshake_complete_witness :
  handshakeComplete server_session = false
  /\ qcrypto_tls_session_bye strerror0 bye_blocked server_session
     = ((0, None), server_session, [])
  /\ In (EvEngine gnutls_bye)
        (steps (qcrypto_tls_session_bye strerror0 bye_blocked guarded_session)).
Proof.
  split; [reflexivity |]. split.
  - apply (proj2 (bye_reaches_engine_iff_handshake_complete
                    strerror0 bye_blocked server_session)).
    reflexivity.
  - apply (proj1 (bye_reaches_engine_iff_handshake_complete
                    strerror0 bye_blocked guarded_session)).
    reflexivity.
Defined.

Lemma guard_engaged_once_and_for_all_witness :
  lockEnabled required_session = false
  /\ exists s1 s2,
       exec strerror0 true (OpHandshake tls13_handshake) required_session = Some s1
       /\ exec_all strerror0 true
            [OpWrite failed_send; OpHandshake handshake_reset; OpBye bye_reset] s1
          = Some s2
       /\ lockEnabled s1 = true /\ lockEnabled s2 = true.
Proof.
  split; [reflexivity |].
  eexists. eexists. split; [reflexivity |]. split; [reflexivity |].
  destruct (guard_engaged_once_and_for_all
              strerror0 true (OpHandshake tls13_handshake)
              [OpWrite failed_send; OpHandshake handshake_reset; OpBye bye_reset]
              required_session _ _ eq_refl eq_refl) as [H1 H2].
  split; [exact H1 | apply H2; exact H1].
Defined.

Lemma guard_never_engaged_unless_required_witness :
  exists s',
    exec_all strerror0 true
      [OpHandshake tls13_handshake; OpWrite failed_send; OpBye bye_blocked]
      wired_session = Some s'
    /\ requireThreadSafety s' = false /\ lockEnabled s' = false.
Proof.
  eexists. split; [reflexivity |].
  apply (guard_never_engaged_unless_required
           strerror0 true
           [OpHandshake tls13_handshake; OpWrite failed_send; OpBye bye_blocked]
           wired_session _ eq_refl); reflexivity.
Defined.

Lemma disengaged_guard_is_never_touched_witness :
  lockEnabled wired_session = false
  /\ mutex_untouched (steps (qcrypto_tls_session_write strerror0 failed_send
                                                      wired_session)) = true
  /\ mutex_untouched (steps (qcrypto_tls_session_read strerror0 failed_send false
                                                     wired_session)) = true
  /\ mutex_untouched (steps (qcrypto_tls_session_handshake
                               strerror0 true tls13_handshake wired_session))
     = true
  /\ mutex_untouched (steps (qcrypto_tls_session_bye strerror0 bye_blocked
                                                    wired_session)) = true.
Proof.
  split; [reflexivity |].
  apply (disengaged_guard_is_never_touched
           strerror0 true failed_send false tls13_handshake bye_blocked
           wired_session).
  reflexivity.
Defined.

Lemma accepted_peer_passed_every_check_witness :
  qcrypto_tls_session_check_credentials strerror0 2 authz_allows server_session
  = Some (0, None, set_peername (Some (BufDname "CN=peer")) server_session)
  /\ exists dn,
       peer_acceptable authz_allows server_session dn
       /\ set_peername (Some (BufDname "CN=peer")) server_session
          = set_peername (Some (BufDname dn)) server_session.
Proof.
  split; [reflexivity |].
  apply (accepted_peer_passed_every_check
           strerror0 2 authz_allows server_session
           (set_peername (Some (BufDname "CN=peer")) server_session) None).
  - reflexivity.
  - reflexivity.
Defined.

Lemma acceptable_peer_is_accepted_witness :
  peer_acceptable authz_allows server_session "CN=peer"
  /\ qcrypto_tls_session_check_credentials strerror0 2 authz_allows server_session
     = Some (0, None, set_peername (Some (BufDname "CN=peer")) server_session)
  /\ qcrypto_tls_session_get_peer_name
       (set_peername (Some (BufDname "CN=peer")) server_session)
     = Some (BufDname "CN=peer").
Proof.
  assert (H : peer_acceptable authz_allows server_session "CN=peer").
  { unfold peer_acceptable. cbn.
    split; [discriminate |]. split; [discriminate |]. split; [reflexivity |].
    split; [| reflexivity].
    exists peer_cert, []. split; [reflexivity |]. split; [reflexivity |].
    split; [| reflexivity]. constructor; [reflexivity | constructor]. }
  split; [exact H |].
  apply (acceptable_peer_is_accepted strerror0 2 authz_allows server_session
                                     "CN=peer" (le_n 2) eq_refl H).
Defined.

Lemma verification_verdict_and_frame_witness :
  ((-1 = 0 /\ Some "TLS x509 authz check for CN=peer is denied" = None)
   \/ (-1 = -1 /\ Some "TLS x509 authz check for CN=peer is denied" <> None))
  /\ exists p,
       set_peername (Some (BufDname "CN=peer")) server_session
       = set_peername p server_session.
Proof.
  apply (verification_verdict_and_frame
           strerror0 2 authz_denies server_session
           (set_peername (Some (BufDname "CN=peer")) server_session)
           (-1) (Some "TLS x509 authz check for CN=peer is denied")).
  reflexivity.
Defined.

Lemma chain_with_certificate_out_of_order_rejected_witness :
  In expired_issuer (env_peers chain_with_expired_issuer)
  /\ cert_in_order (env_time chain_with_expired_issuer) expired_issuer = false
  /\ qcrypto_tls_session_check_credentials strerror0 2 chain_with_expired_issuer
       server_session
     = Some (-1, Some "The certificate has expired",
             set_peername (Some (BufDname "CN=peer")) server_session)
  /\ (-1 = -1 /\ Some "The certificate has expired" <> None).
Proof.
  assert (Hin : In expired_issuer (env_peers chain_with_expired_issuer))
    by (right; left; reflexivity).
  split; [exact Hin |]. split; [reflexivity |]. split; [reflexivity |].
  apply (chain_with_certificate_out_of_order_rejected
           strerror0 2 chain_with_expired_issuer server_session
           (set_peername (Some (BufDname "CN=peer")) server_session)
           (-1) (Some "The certificate has expired") expired_issuer
           eq_refl Hin eq_refl eq_refl).
Defined.

Lemma verify_status_reason_precedence_witness :
  qcrypto_tls_session_check_credentials strerror0 2 revoked_and_unknown_issuer
    server_session
  = Some (-1, Some "The certificate has been revoked", server_session).
Proof.
  assert (Htime : env_time revoked_and_unknown_issuer <> -1) by discriminate.
  assert (Hret : 0 <= env_verify_ret revoked_and_unknown_issuer)
    by discriminate.
  assert (Hst : env_verify_status revoked_and_unknown_issuer <> 0)
    by discriminate.
  apply (proj1 (verify_status_reason_precedence
                  strerror0 2 revoked_and_unknown_issuer server_session
                  eq_refl Htime Hret Hst)).
Defined.

Lemma requery_ends_within_two_passes_witness :
  requery 5 peer_cert 1024 = requery 2 peer_cert 1024
  /\ requery 5 peer_cert 1024 <> None
  /\ (forall dn, crt_dn peer_cert = Some dn ->
        requery 5 peer_cert 1024 = Some (0, BufDname dn)
        /\ (1024 <= Z.of_nat (String.length dn) ->
            requery 1 peer_cert 1024 = None)).
Proof.
  apply (requery_ends_within_two_passes 5 peer_cert).
  apply le_S, le_S, le_S, le_n.
Defined.

Lemma stale_transport_error_not_reported_witness :
  snd (value (qcrypto_tls_session_write strerror0
                (mkEngineRun ([mkIoCall DirWrite reset_by_peer]
                              ++ [mkIoCall DirWrite sent_all]) (-53))
                wired_session))
  = Some "Cannot write to TLS channel: GNUTLS error".
Proof.
  apply (proj1 (stale_transport_error_not_reported
                  strerror0 [mkIoCall DirWrite reset_by_peer] sent_all (-53)
                  false wired_session eq_refl)); reflexivity.
Defined.

Lemma client_certificate_requested_by_x509_server_only_witness :
  exists tr,
    qcrypto_tls_session_new strerror0 "NORMAL" engine_accepts x509_server_creds
      None (Some "tls-acl") QCRYPTO_TLS_CREDS_ENDPOINT_SERVER
    = (Some server_session, None, tr)
    /\ In (EvEngine gnutls_certificate_server_set_request) tr.
Proof.
  eexists. split; [reflexivity |].
  apply (client_certificate_requested_by_x509_server_only
           strerror0 "NORMAL" engine_accepts x509_server_creds
           None (Some "tls-acl") QCRYPTO_TLS_CREDS_ENDPOINT_SERVER
           server_session _ eq_refl).
  split; reflexivity.
Defined.

Lemma session_configuration_never_changes_witness :
  exists s',
    exec_all strerror0 true
      [OpRequireThreadSafety; OpHandshake tls13_handshake;
       OpCheckCredentials 2 authz_denies; OpWrite failed_send; OpBye bye_reset]
      wired_session = Some s'
    /\ creds s' = creds wired_session /\ hostname s' = hostname wired_session
    /\ authzid s' = authzid wired_session /\ handle s' = handle wired_session.
Proof.
  eexists. split; [reflexivity |].
  apply (session_configuration_never_changes
           strerror0 true
           [OpRequireThreadSafety; OpHandshake tls13_handshake;
            OpCheckCredentials 2 authz_denies; OpWrite failed_send;
            OpBye bye_reset]
           wired_session _ eq_refl).
Defined.

Lemma peer_name_written_only_by_x509_verification_witness :
  peername (set_peername (Some (BufDname "CN=peer")) server_session)
  <> peername server_session
  /\ verifies_x509 server_session = true
  /\ exists fuel env,
       OpCheckCredentials 2 authz_denies = OpCheckCredentials fuel env.
Proof.
  assert (H : peername (set_peername (Some (BufDname "CN=peer")) server_session)
              <> peername server_session) by discriminate.
  split; [exact H |].
  apply (peer_name_written_only_by_x509_verification
           strerror0 true (OpCheckCredentials 2 authz_denies) server_session
           (set_peername (Some (BufDname "CN=peer")) server_session)
           eq_refl H).
Defined.
